(** * analyze_contra_costa.py: a shallow embedding and its properties

    The script [scripts/data-analysis/analyze_contra_costa.py] reads a
    tab-delimited voter export three times: a bounded sampling pass
    ([analyze_voter_file]), a dump of one record ([print_sample_record])
    and a line count ([count_total_rows]).

    Modelling choices.
    - Text is a list of Unicode code points ([str]); the file is taken
      after decoding (utf-8, errors='replace'), so every code point
      sequence is a possible content.  The file exists and can be read.
    - [open(..., 'r')] uses universal newlines: [readlines] translates
      CR LF and CR to LF and yields lines with their terminator.
    - [csv.reader] is the character automaton of CPython's [_csv] module
      (Python 3.11 and later) for the dialect the script selects:
      delimiter TAB, the double quote as quotechar, doublequote, no
      escapechar, no skipinitialspace, not strict.  The reader raises
      [csv.Error] at the character that would take a field beyond
      [csv.field_size_limit()], 131072 by default.
    - [csv.DictReader] follows [csv.py]: header from the first record,
      blank records skipped, [restkey = None], [restval = None].
    - Python [int] is [Z]; [float] is Rocq's primitive binary64 float,
      and [int / int] is the quotient of the two conversions (exact
      conversions below 2^53, which covers counts and file sizes).
    - [print] appends one entry to the output; an exception keeps the
      output written so far.
    - The program ([main]) gets its arguments, the files of the machine
      and the line the operator types at the prompt; [input] finds a line
      to read. *)

From Stdlib Require Import ZArith List Ascii String Decimal DecimalString.
From Stdlib Require Import PrimFloat FloatOps SpecFloat Uint63.
From stdpp Require Import gmap list.

Local Open Scope Z_scope.

(** ** Text *)

Module Text.

(** A character is a code point. *)
Definition str := list N.

Definition of_string (s : string) : str :=
  map N_of_ascii (list_ascii_of_string s).

Definition LF : N := 10%N.
Definition CR : N := 13%N.
Definition TAB : N := 9%N.
Definition QUOTE : N := 34%N.
Definition SPACE : N := 32%N.

(** [str.isspace] on one character (CPython's [_PyUnicode_IsWhitespace]). *)
Definition isspace (c : N) : bool :=
  ((9 <=? c) && (c <=? 13) || (28 <=? c) && (c <=? 32)
   || (c =? 133) || (c =? 160) || (c =? 5760)
   || (8192 <=? c) && (c <=? 8202)
   || (c =? 8232) || (c =? 8233) || (c =? 8239) || (c =? 8287)
   || (c =? 12288))%N.

Fixpoint lstrip (s : str) : str :=
  match s with
  | c :: r => if isspace c then lstrip r else s
  | [] => []
  end.

Definition rstrip (s : str) : str := rev (lstrip (rev s)).

(** [s.strip()] *)
Definition strip (s : str) : str := rstrip (lstrip s).

(** [s[:n]] for [n >= 0] *)
Definition slice_to (n : nat) (s : str) : str := take n s.
Arguments slice_to : simpl never.

(** [c * n] *)
Definition repeat_char (c : N) (n : nat) : str := replicate n c.

(** [sep.join(xs)] *)
Fixpoint join (sep : str) (xs : list str) : str :=
  match xs with
  | [] => []
  | [x] => x
  | x :: r => x ++ sep ++ join sep r
  end.

(** [format(s, 'Ns')]: left-aligned, filled with spaces up to the width,
    never cut. *)
Definition ljust (w : nat) (s : str) : str :=
  s ++ repeat_char SPACE (w - length s).

(** Right alignment, as for numbers. *)
Definition rjust (w : nat) (s : str) : str :=
  repeat_char SPACE (w - length s) ++ s.

(** [str(n)] for an integer. *)
Definition str_of_int (n : Z) : str :=
  of_string (NilZero.string_of_int (Z.to_int n)).

(** [format(n, ',')]: a comma before every group of three digits, counted
    from the right. *)
Fixpoint group3 (rdigits : list N) (k : nat) : list N :=
  match rdigits with
  | [] => []
  | d :: r =>
      match k with
      | 3%nat => 44%N :: d :: group3 r 1
      | _ => d :: group3 r (S k)
      end
  end.

Definition format_thousands (n : Z) : str :=
  let digits := rev (group3 (rev (str_of_int (Z.abs n))) 0) in
  if n <? 0 then 45%N :: digits else digits.

(** Universal newlines: CR LF and a lone CR both read as LF. *)
Fixpoint translate_newlines (s : str) : str :=
  match s with
  | [] => []
  | c :: r =>
      if (c =? CR)%N then
        match r with
        | c' :: r' => if (c' =? LF)%N then LF :: translate_newlines r'
                      else LF :: translate_newlines r
        | [] => [LF]
        end
      else c :: translate_newlines r
  end.

(** Lines of a text, each with its terminating LF (the last line may
    lack one); [cur] is the line being read. *)
Fixpoint lines_from (cur s : str) : list str :=
  match s with
  | [] => match cur with [] => [] | _ => [cur] end
  | c :: r =>
      if (c =? LF)%N then (cur ++ [c]) :: lines_from [] r
      else lines_from (cur ++ [c]) r
  end.

(** What iterating the text file object yields. *)
Definition readlines (content : str) : list str :=
  lines_from [] (translate_newlines content).

End Text.

Import Text.

(** ** Numbers: [int / int], [float * int] and the [f] format *)

Module PyNum.

(** [float(n)], exact for [|n| < 2^53]. *)
Definition float_of_int (n : Z) : float :=
  if n <? 0 then PrimFloat.opp (PrimFloat.of_uint63 (Uint63.of_Z (- n)))
  else PrimFloat.of_uint63 (Uint63.of_Z n).

(** [a / b] on integers, for a divisor that is not zero (both call
    sites of the script guarantee it). *)
Definition truediv (a b : Z) : float :=
  PrimFloat.div (float_of_int a) (float_of_int b).

(** [x * n] for a float and an integer. *)
Definition mul_int (x : float) (n : Z) : float :=
  PrimFloat.mul x (float_of_int n).

(** A value handed to a format specification. *)
Inductive num :=
  | PyInt (n : Z)
  | PyFloat (x : float).

Definition to_float (v : num) : float :=
  match v with PyInt n => float_of_int n | PyFloat x => x end.

(** [num / den] rounded to the nearest integer, ties to even ([den > 0]). *)
Definition round_half_even (n d : Z) : Z :=
  let q := n / d in
  let r := n mod d in
  if 2 * r <? d then q
  else if d <? 2 * r then q + 1
  else if Z.even q then q else q + 1.

(** [|x| * 10^prec] rounded to an integer, for the finite float
    [m * 2^e]: the digits the [f] format shows. *)
Definition scaled_digits (prec : nat) (m : positive) (e : Z) : Z :=
  let n := Z.pos m * 10 ^ Z.of_nat prec in
  if 0 <=? e then n * 2 ^ e else round_half_even n (2 ^ (- e)).

Definition render_fixed (prec : nat) (neg : bool) (t : Z) : str :=
  let p := 10 ^ Z.of_nat prec in
  let frac := str_of_int (t mod p) in
  (if neg then [45%N] else [])
  ++ str_of_int (t / p)
  ++ match prec with
     | O => []
     | _ => 46%N :: repeat_char 48%N (prec - length frac) ++ frac
     end.

(** [format(x, '.<prec>f')] *)
Definition format_fixed (prec : nat) (v : num) : str :=
  match Prim2SF (to_float v) with
  | S754_nan => of_string "nan"
  | S754_infinity neg => of_string (if neg then "-inf" else "inf")
  | S754_zero neg => render_fixed prec neg 0
  | S754_finite neg m e => render_fixed prec neg (scaled_digits prec m e)
  end.

End PyNum.

Import PyNum.

(** ** Exceptions and iterators *)

Inductive exn :=
  | StopIteration
  | TypeError
  | AttributeError
  | CsvError.

Inductive result (A : Type) :=
  | Ok (a : A)
  | Raise (e : exn).
Arguments Ok {A} a.
Arguments Raise {A} e.

(** An iterator that is read to its end: the items it yields in order,
    and how it stops ([None]: it is exhausted, [Some e]: the next read
    raises [e]).  A consumer that leaves early never sees the end. *)
Definition stream (A : Type) : Type := (list A * option exn)%type.

(** ** [csv.reader(f, delimiter=TAB)] *)

Module Csv.

Inductive pstate :=
  | START_RECORD
  | START_FIELD
  | IN_FIELD
  | IN_QUOTED_FIELD
  | QUOTE_IN_QUOTED_FIELD
  | EAT_CRNL.

Record parser := {
  state : pstate;
  field : str;            (* the field being read *)
  fields : list str       (* the fields of the record, so far *)
}.

Definition set_state (s : pstate) (p : parser) : parser :=
  {| state := s; field := field p; fields := fields p |}.

Definition parse_save_field (p : parser) : parser :=
  {| state := state p; field := []; fields := fields p ++ [field p] |}.

(** [csv.field_size_limit()]; the script leaves it at its default. *)
Definition field_limit : Z := 131072.

(** A character is refused once the field holds [field_limit] of them. *)
Definition parse_add_char (p : parser) (c : N) : result parser :=
  if field_limit <=? Z.of_nat (length (field p)) then Raise CsvError
  else Ok {| state := state p; field := field p ++ [c]; fields := fields p |}.

(** [parse_add_char], then the move to state [s]. *)
Definition add_then (s : pstate) (p : parser) (c : N) : result parser :=
  match parse_add_char p c with
  | Ok p' => Ok (set_state s p')
  | Raise e => Raise e
  end.

Definition parse_reset : parser :=
  {| state := START_RECORD; field := []; fields := [] |}.

Definition is_newline (c : N) : bool := ((c =? LF) || (c =? CR))%N.

(** The [START_FIELD] case; [START_RECORD] falls through to it. *)
Definition start_field (p : parser) (c : option N) : result parser :=
  match c with
  | None => Ok (set_state START_RECORD (parse_save_field p))
  | Some ch =>
      if is_newline ch then Ok (set_state EAT_CRNL (parse_save_field p))
      else if (ch =? QUOTE)%N then Ok (set_state IN_QUOTED_FIELD p)
      else if (ch =? TAB)%N then Ok (set_state START_FIELD (parse_save_field p))
      else add_then IN_FIELD p ch
  end.

(** One step of the automaton; [None] is the end-of-line mark that the
    reader feeds after the characters of a line. *)
Definition parse_process_char (p : parser) (c : option N) : result parser :=
  match state p with
  | START_RECORD =>
      match c with
      | None => Ok p
      | Some ch =>
          if is_newline ch then Ok (set_state EAT_CRNL p)
          else start_field p c
      end
  | START_FIELD => start_field p c
  | IN_FIELD =>
      match c with
      | None => Ok (set_state START_RECORD (parse_save_field p))
      | Some ch =>
          if is_newline ch then Ok (set_state EAT_CRNL (parse_save_field p))
          else if (ch =? TAB)%N then Ok (set_state START_FIELD (parse_save_field p))
          else parse_add_char p ch
      end
  | IN_QUOTED_FIELD =>
      match c with
      | None => Ok p
      | Some ch =>
          if (ch =? QUOTE)%N then Ok (set_state QUOTE_IN_QUOTED_FIELD p)
          else parse_add_char p ch
      end
  | QUOTE_IN_QUOTED_FIELD =>
      match c with
      | None => Ok (set_state START_RECORD (parse_save_field p))
      | Some ch =>
          if (ch =? QUOTE)%N then add_then IN_QUOTED_FIELD p ch
          else if (ch =? TAB)%N then Ok (set_state START_FIELD (parse_save_field p))
          else if is_newline ch then Ok (set_state EAT_CRNL (parse_save_field p))
          else add_then IN_FIELD p ch
      end
  | EAT_CRNL =>
      match c with
      | None => Ok (set_state START_RECORD p)
      | Some ch => if is_newline ch then Ok p else Raise CsvError
      end
  end.

(** The characters of one line, then the end-of-line mark. *)
Fixpoint feed_line (p : parser) (line : str) : result parser :=
  match line with
  | [] => parse_process_char p None
  | c :: r =>
      match parse_process_char p (Some c) with
      | Ok p' => feed_line p' r
      | Raise e => Raise e
      end
  end.

Definition in_quoted (p : parser) : bool :=
  match state p with IN_QUOTED_FIELD => true | _ => false end.

(** Every record the reader yields on [lines], starting in state [p]:
    lines are fed until the automaton is back in [START_RECORD]; at the end
    of the input an open quoted field is closed and its record yielded. *)
Fixpoint records_from (p : parser) (lines : list str) : stream (list str) :=
  match lines with
  | [] =>
      if negb (Nat.eqb (length (field p)) 0) || in_quoted p
      then ([fields (parse_save_field p)], None)
      else ([], None)
  | l :: rest =>
      match feed_line p l with
      | Raise e => ([], Some e)
      | Ok p' =>
          match state p' with
          | START_RECORD =>
              let '(rs, e) := records_from parse_reset rest in
              (fields p' :: rs, e)
          | _ => records_from p' rest
          end
      end
  end.

Definition reader (lines : list str) : stream (list str) :=
  records_from parse_reset lines.

End Csv.

(** The text of a file whose lines are the given rows, fields joined by
    TAB and every line ended by LF. *)
Definition tsv (rows : list (list string)) : str :=
  concat (map (fun r => join [TAB] (map of_string r) ++ [LF]) rows).

(** ** [csv.DictReader] *)

Module DictReader.

(** A cell of a row: a string read from the file, [None] for a column the
    line does not reach ([restval]), or the list of surplus values
    (stored under [restkey]). *)
Inductive value :=
  | VNone
  | VStr (s : str)
  | VList (l : list str).

(** A key of a row: a column name, or [None] ([restkey]). *)
Definition key : Type := option str.

(** A [dict] in insertion order. *)
Definition dict : Type := list (key * value).

(** [d[k] = v]: an existing key keeps its place, a new one goes last. *)
Fixpoint dict_set (d : dict) (k : key) (v : value) : dict :=
  match d with
  | [] => [(k, v)]
  | (k', v') :: r =>
      if decide (k' = k) then (k, v) :: r else (k', v') :: dict_set r k v
  end.

Fixpoint dict_get (d : dict) (k : key) : option value :=
  match d with
  | [] => None
  | (k', v') :: r => if decide (k' = k) then Some v' else dict_get r k
  end.

(** The body of [__next__] once a non-blank record [row] is read:
    [dict(zip(fieldnames, row))], then the surplus or the missing part. *)
Definition make_row (fieldnames row : list str) : dict :=
  let d := foldl (fun d kv => dict_set d (Some kv.1) (VStr kv.2)) []
                 (zip fieldnames row) in
  let lf := length fieldnames in
  let lr := length row in
  if (lf <? lr)%nat then dict_set d None (VList (drop lf row))
  else if (lr <? lf)%nat then
    foldl (fun d k => dict_set d (Some k) VNone) d (drop lr fieldnames)
  else d.

Definition is_blank (row : list str) : bool :=
  match row with [] => true | _ => false end.

(** [reader.fieldnames]: the first record of the underlying reader; it
    stays [None] when the file has no record at all. *)
Definition fieldnames (rd : stream (list str)) : result (option (list str)) :=
  match rd with
  | ([], None) => Ok None
  | ([], Some e) => Raise e
  | (header :: _, _) => Ok (Some header)
  end.

(** The rows that iterating the [DictReader] yields: the records after
    the header, blank ones skipped. *)
Definition rows (rd : stream (list str)) : stream dict :=
  match rd with
  | ([], e) => ([], e)
  | (header :: rs, e) =>
      (map (make_row header) (filter (fun r => negb (is_blank r)) rs), e)
  end.

End DictReader.

Import DictReader.

(** ** The script *)

(** One [print] call. Every line is its text, but for the samples of a
    field: a [set] is joined in its iteration order, which the language
    leaves open, so that line keeps the set. *)
Inductive printed :=
  | Line (s : str)
  | SamplesLine (samples : gset str).

(** Output written so far, and a result or the exception raised. *)
Definition io (A : Type) : Type := (list printed * result A)%type.

Definition ret {A} (a : A) : io A := ([], Ok a).
Definition raise {A} (e : exn) : io A := ([], Raise e).
Definition print (s : str) : io unit := ([Line s], Ok tt).
Definition emit (ls : list printed) : io unit := (ls, Ok tt).
Definition lift {A} (r : result A) : io A := ([], r).

#[global] Instance io_bind : MBind io := fun A B (k : A -> io B) (m : io A) =>
  match m with
  | (out, Raise e) => (out, Raise e)
  | (out, Ok a) => let '(out', r) := k a in (out ++ out', r)
  end.

(** The file as the script sees it: its path, its size in bytes
    ([Path(file_path).stat().st_size]) and its decoded text. *)
Record file := {
  file_path : str;
  st_size : Z;
  content : str
}.

(** [{'filled': 0, 'empty': 0, 'samples': set()}] *)
Record stat := {
  filled : Z;
  empty : Z;
  samples : gset str
}.

Definition new_stat : stat := {| filled := 0; empty := 0; samples := ∅ |}.

(** [field_stats[k]] on the [defaultdict]: a missing key reads as a fresh
    entry (which the assignments below then store). *)
Definition getitem (field_stats : gmap key stat) (k : key) : stat :=
  default new_stat (field_stats !! k).

Definition sample_size : Z := 100.

(** Lines 44-50, for one cell, by the dynamic type of [value]:
    [value and value.strip()] is false for [None], for an empty string
    or list and for a blank string; a non-empty list has no [strip]. *)
Definition record_value (field_stats : gmap key stat) (field : key) (v : value)
  : result (gmap key stat) :=
  let st := getitem field_stats field in
  let count_empty :=
    <[field := {| filled := filled st; empty := empty st + 1;
                  samples := samples st |}]> field_stats in
  match v with
  | VNone => Ok count_empty
  | VList [] => Ok count_empty
  | VList (_ :: _) => Raise AttributeError
  | VStr s =>
      match s, strip s with
      | [], _ | _, [] => Ok count_empty
      | _, _ =>
          let smp :=
            if (size (samples st) <? 3)%nat
            then samples st ∪ {[ slice_to 50 (strip s) ]}
            else samples st in
          Ok (<[field := {| filled := filled st + 1; empty := empty st;
                            samples := smp |}]> field_stats)
      end
  end.

(** [for field, value in row.items(): ...] *)
Fixpoint record_row (items : dict) (field_stats : gmap key stat)
  : result (gmap key stat) :=
  match items with
  | [] => Ok field_stats
  | (field, v) :: r =>
      match record_value field_stats field v with
      | Ok fs => record_row r fs
      | Raise e => Raise e
      end
  end.

(** Lines 40-53: [row_num] is the number [enumerate] gives to the next
    row; the result is [row_count] and [field_stats] when the loop is
    left. *)
Fixpoint sample_loop (rows : list dict) (ending : option exn)
    (row_num row_count : Z) (field_stats : gmap key stat)
  : result (Z * gmap key stat) :=
  match rows with
  | [] =>
      match ending with
      | None => Ok (row_count, field_stats)
      | Some e => Raise e
      end
  | row :: rest =>
      match record_row row field_stats with
      | Raise e => Raise e
      | Ok fs =>
          if sample_size <=? row_num then Ok (row_num, fs)
          else sample_loop rest ending (row_num + 1) row_num fs
      end
  end.

Definition key_fields : list str :=
  map of_string
    [ "RegistrationNumber"; "VoterID"; "VoterTitle";
      "LastName"; "FirstName"; "MiddleName"; "NameSuffix"; "Gender";
      "ResidenceCity"; "ResidenceZipCode";
      "HouseNumber"; "PreDirection"; "StreetName"; "StreetSuffix";
      "PostDirection"; "UnitAbbr"; "UnitNumber";
      "MailAddress1"; "MailAddress2"; "MailAddress3"; "MailAddress4";
      "MailCity"; "MailState"; "MailZip";
      "PhoneNumber"; "EmailAddress";
      "RegistrationDate"; "BirthDate"; "BirthPlace";
      "PartyName"; "PartyAbbr"; "Language";
      "VBMProgramStatus"; "StatusReason";
      "PrecinctID"; "PrecinctPortion"; "PrecinctName" ]%string.

(** Line 91. *)
Definition filled_pct (filled row_count : Z) : num :=
  if 0 <? row_count then PyFloat (mul_int (truediv filled row_count) 100)
  else PyInt 0.

Definition rule : str := repeat_char 61%N 80.

(** Lines 89-95, for one key field. *)
Definition report_field (field_stats : gmap key stat) (row_count : Z)
    (field : str) : list printed :=
  match field_stats !! Some field with
  | None => []
  | Some stats =>
      [ Line (LF :: field ++ of_string ":");
        Line (of_string "  Filled: " ++ str_of_int (filled stats)
              ++ of_string "/" ++ str_of_int row_count
              ++ of_string " (" ++ format_fixed 1 (filled_pct (filled stats) row_count)
              ++ of_string "%)") ]
      ++ (if decide (samples stats = ∅) then []
          else [SamplesLine (samples stats)])
  end.

(** [analyze_voter_file].  The Python function returns nothing; the model
    returns the locals [row_count] and [field_stats] it ends with. *)
Definition analyze_voter_file (f : file) : io (Z * gmap key stat) :=
  print (of_string "Analyzing: " ++ file_path f) ;;
  print (of_string "File size: "
         ++ format_fixed 2 (PyFloat (truediv (st_size f) (1024 * 1024)))
         ++ of_string " MB") ;;
  print rule ;;
  let rd := Csv.reader (readlines (content f)) in
  names ← lift (fieldnames rd);
  match names with
  | None => raise TypeError                       (* len(None) *)
  | Some names =>
      print (LF :: of_string "Total Fields: "
             ++ str_of_int (Z.of_nat (length names))) ;;
      print (LF :: of_string "Field Names:") ;;
      emit (imap (fun i field =>
                    Line (of_string "  "
                          ++ rjust 3 (str_of_int (Z.of_nat i + 1))
                          ++ of_string ". " ++ field)) names) ;;
      print ([LF; LF] ++ of_string "Analyzing first "
             ++ str_of_int sample_size ++ of_string " rows...") ;;
      r ← lift (sample_loop (rows rd).1 (rows rd).2 1 0 ∅);
      print (LF :: of_string "Rows analyzed: " ++ str_of_int r.1) ;;
      print (LF :: rule) ;;
      print (of_string "KEY FIELDS ANALYSIS (from sample)") ;;
      print rule ;;
      emit (concat (map (report_field r.2 r.1) key_fields)) ;;
      print (LF :: rule) ;;
      print (of_string "ANALYSIS COMPLETE") ;;
      print rule ;;
      ret r
  end.

(** Lines 113-115, for one cell. *)
Definition print_field (field : key) (v : value) : io unit :=
  match v with
  | VNone => ret tt
  | VList [] => ret tt
  | VList (_ :: _) => raise AttributeError
  | VStr s =>
      match s, strip s with
      | [], _ | _, [] => ret tt
      | _, _ =>
          match field with
          | Some name => print (ljust 30 name ++ of_string ": " ++ s)
          | None => raise TypeError                (* format(None, '30s') *)
          end
      end
  end.

Fixpoint print_fields (items : dict) : io unit :=
  match items with
  | [] => ret tt
  | (field, v) :: r => print_field field v ;; print_fields r
  end.

(** Lines 111-116: [i] is the number [enumerate] gives to the next row. *)
Fixpoint find_record (rows : list dict) (ending : option exn)
    (i record_num : Z) : io unit :=
  match rows with
  | [] =>
      match ending with
      | None => ret tt
      | Some e => raise e
      end
  | row :: rest =>
      if i =? record_num then print_fields row
      else find_record rest ending (i + 1) record_num
  end.

Definition print_sample_record (f : file) (record_num : Z) : io unit :=
  print (LF :: rule) ;;
  print (of_string "SAMPLE RECORD #" ++ str_of_int record_num) ;;
  print rule ;;
  let rd := rows (Csv.reader (readlines (content f))) in
  find_record rd.1 rd.2 1 record_num.

(** [count_total_rows]: [next(f)] drops the header line (and raises on a
    file without lines), then the remaining lines are counted. *)
Definition count_total_rows (f : file) : io Z :=
  print (LF :: rule) ;;
  print (of_string "COUNTING TOTAL ROWS (this may take a minute)...") ;;
  print rule ;;
  match readlines (content f) with
  | [] => raise StopIteration
  | _ :: rest =>
      let count := Z.of_nat (length rest) in
      print (of_string "Total voter records: " ++ format_thousands count) ;;
      ret count
  end.

(** *** The program (lines 132-141) *)

(** What the console shows: the lines printed, and the prompt of
    [input], which is written without a line end. *)
Inductive console :=
  | Out (p : printed)
  | Ask (prompt : str).

(** The files of the machine: for every path, the size in bytes and the
    decoded text. *)
Definition disk : Type := str -> Z * str.

Definition open_file (d : disk) (path : str) : file :=
  {| file_path := path; st_size := (d path).1; content := (d path).2 |}.

Definition default_path : str :=
  of_string "tmp/0_20230424_092505_SpinnerNicholas.txt".

Definition count_prompt : str :=
  LF :: of_string "Count total rows? This may take a minute. (y/n): ".

(** [response.lower() == 'y']: the lower case of a string is the one
    letter y for the strings y and Y only. *)
Definition answers_yes (response : str) : bool :=
  bool_decide (response = of_string "y")
  || bool_decide (response = of_string "Y").

(** The program run with the arguments [argv] ([sys.argv]); [response]
    is the line the operator types at the prompt. *)
Definition main (argv : list str) (d : disk) (response : str)
  : list console * result unit :=
  let file_path := match argv with _ :: p :: _ => p | _ => default_path end in
  let f := open_file d file_path in
  match analyze_voter_file f with
  | (out1, Raise e) => (map Out out1, Raise e)
  | (out1, Ok _) =>
      match print_sample_record f 2 with
      | (out2, Raise e) => (map Out (out1 ++ out2), Raise e)
      | (out2, Ok _) =>
          let asked := map Out (out1 ++ out2) ++ [Ask count_prompt] in
          if answers_yes response then
            match count_total_rows f with
            | (out3, Raise e) => (asked ++ map Out out3, Raise e)
            | (out3, Ok _) => (asked ++ map Out out3, Ok tt)
            end
          else (asked, Ok tt)
      end
  end.

Definition scenario : file :=
  {| file_path := of_string "voters.txt"; st_size := 22;
     content := tsv [["A";"B";"C"]; ["1";"";"3"]; ["4";"5";""]; ["7";"8";"9"]]%string |}.


(** ** Notions used in the statements *)

(** A line body: no line break inside. *)
Definition plain (l : str) : Prop := Forall (fun c => c ≠ LF ∧ c ≠ CR) l.

(** A column name as a tab-delimited header spells it: no TAB or line
    break inside, no quote in front, and no longer than a field of the
    csv reader may be. *)
Definition plain_name (nm : str) : Prop :=
  Forall (fun c => c ≠ TAB ∧ c ≠ LF ∧ c ≠ CR) nm ∧ head nm ≠ Some QUOTE
  ∧ Z.of_nat (length nm) <= Csv.field_limit.

(** The column names [analyze_voter_file] reads from the file. *)
Definition header_fields (f : file) : list str :=
  match fieldnames (Csv.reader (readlines (content f))) with
  | Ok (Some names) => names
  | _ => []
  end.

(** The data rows of the file, as the [DictReader] yields them. *)
Definition data_rows (f : file) : list dict :=
  (rows (Csv.reader (readlines (content f)))).1.

(** The three lines every pass prints first. *)
Definition banner (title : str) : list printed :=
  [Line (LF :: rule); Line title; Line rule].

(** What a line of a text file looks like: a body, and LF at its end
    unless the file stops before. *)
Definition wf_line (l : str) : Prop :=
  ∃ body, plain body ∧ (l = body ++ [LF] ∨ l = body).

(** The characters of a piece of a line, without the end-of-line mark. *)
Fixpoint run (p : Csv.parser) (l : str) : result Csv.parser :=
  match l with
  | [] => Ok p
  | c :: r =>
      match Csv.parse_process_char p (Some c) with
      | Ok p' => run p' r
      | Raise e => Raise e
      end
  end.

(** After a column name the automaton holds it as the current field. *)
Definition after_name (fs : list str) (nm : str) : Csv.parser :=
  match nm with
  | [] => {| Csv.state := Csv.START_FIELD; Csv.field := []; Csv.fields := fs |}
  | _ => {| Csv.state := Csv.IN_FIELD; Csv.field := nm; Csv.fields := fs |}
  end.

(** The cells read from the line, before the surplus or the missing part
    is handled. *)
Definition zipped (header row : list str) : dict :=
  foldl (fun d kv => dict_set d (Some kv.1) (VStr kv.2)) [] (zip header row).

(** A line with no more values than the header has columns gives a row of
    named cells that are strings or [None]. *)
Definition named_cell (kv : key * value) : Prop :=
  (∃ name, kv.1 = Some name) ∧ (kv.2 = VNone ∨ ∃ s, kv.2 = VStr s).

(** The trimmed text of a cell that counts as filled. *)
Definition filled_text (v : value) : option str :=
  match v with
  | VStr s =>
      match s, strip s with
      | [], _ | _, [] => None
      | _, t => Some t
      end
  | _ => None
  end.

(** The entry of a field after one more cell. *)
Definition bump (st : stat) (v : value) : stat :=
  match filled_text v with
  | Some t =>
      {| filled := filled st + 1; empty := empty st;
         samples := if (size (samples st) <? 3)%nat
                    then samples st ∪ {[ slice_to 50 t ]} else samples st |}
  | None =>
      {| filled := filled st; empty := empty st + 1; samples := samples st |}
  end.

(** The cells on which [value.strip()] fails. *)
Definition surplus (v : value) : bool :=
  match v with VList (_ :: _) => true | _ => false end.

(** The rows of the pass, one after the other. *)
Fixpoint record_rows (rows : list dict) (fs : gmap key stat)
  : result (gmap key stat) :=
  match rows with
  | [] => Ok fs
  | row :: rest =>
      match record_row row fs with
      | Ok fs' => record_rows rest fs'
      | Raise e => Raise e
      end
  end.

(** The cells of one key in the rows, in order. *)
Definition cells (k : key) (rows : list dict) : list value :=
  omap (fun row => dict_get row k) rows.

(** What [analyze_voter_file] prints before it reads the file. *)
Definition preamble (f : file) : list printed :=
  [ Line (of_string "Analyzing: " ++ file_path f);
    Line (of_string "File size: "
          ++ format_fixed 2 (PyFloat (truediv (st_size f) (1024 * 1024)))
          ++ of_string " MB");
    Line rule ].

(** What it prints about the header. *)
Definition listing (names : list str) : list printed :=
  [ Line (LF :: of_string "Total Fields: "
          ++ str_of_int (Z.of_nat (length names)));
    Line (LF :: of_string "Field Names:") ]
  ++ imap (fun i field =>
             Line (of_string "  " ++ rjust 3 (str_of_int (Z.of_nat i + 1))
                   ++ of_string ". " ++ field)) names
  ++ [ Line ([LF; LF] ++ of_string "Analyzing first "
             ++ str_of_int sample_size ++ of_string " rows...") ].

(** What it prints after the sampling pass. *)
Definition report (row_count : Z) (field_stats : gmap key stat) : list printed :=
  [ Line (LF :: of_string "Rows analyzed: " ++ str_of_int row_count);
    Line (LF :: rule);
    Line (of_string "KEY FIELDS ANALYSIS (from sample)");
    Line rule ]
  ++ concat (map (report_field field_stats row_count) key_fields)
  ++ [ Line (LF :: rule); Line (of_string "ANALYSIS COMPLETE"); Line rule ].

(** The fields of a row that the dump shows: the named cells whose text
    is neither empty nor blank, in the order of the row. *)
Definition nonempty_fields (row : dict) : list (str * str) :=
  omap (fun kv =>
          match kv with
          | (Some name, VStr s) =>
              match s, strip s with
              | [], _ | _, [] => None
              | _, _ => Some (name, s)
              end
          | _ => None
          end) row.

(** The line of one field: the name, spaces up to column 30 when the
    name is shorter, a colon and a space, the value as read. *)
Definition field_line (name value : str) : printed :=
  Line (name ++ replicate (30 - length name) SPACE ++ of_string ": " ++ value).

(** A header with a column name of 34 characters, and one data row. *)
Definition wide_header : file :=
  {| file_path := of_string "wide.txt"; st_size := 37;
     content := tsv [["ResidenceAddressStreetNumberSuffix"]; ["7"]]%string |}.

(** The two line ends of text files, LF and CR LF. *)
Definition line_end (e : str) : Prop := e = [LF] ∨ e = [CR; LF].

(** The number of tenths the [.1f] format shows for the percentage. *)
Definition pct_tenths (filled row_count : Z) : Z :=
  match Prim2SF (to_float (filled_pct filled row_count)) with
  | S754_finite _ m e => scaled_digits 1 m e
  | _ => 0
  end.

(** For [row_count] rows of which [filled] are filled: the text of the
    percentage is the numeral of [pct_tenths], and that many tenths are
    within half a tenth of [filled / row_count * 100]. *)
Definition pct_rounded (row_count filled : nat) : bool :=
  let f := Z.of_nat filled in
  let r := Z.of_nat row_count in
  bool_decide (format_fixed 1 (filled_pct f r)
               = render_fixed 1 false (pct_tenths f r))
  && (2 * Z.abs (1000 * f - pct_tenths f r * r) <=? r).

(** A file with two of the key fields. *)
Definition voters : file :=
  {| file_path := of_string "voters.txt"; st_size := 37;
     content := tsv [["LastName"; "Gender"]; ["Smith"; "F"];
                     ["Jones"; ""]; ["Lee"; "M"]]%string |}.

(** A header and 150 data rows. *)
Definition long_file : file :=
  {| file_path := of_string "long.txt"; st_size := 302;
     content := tsv (["A"] :: replicate 150 ["x"])%string |}.

(** A header, 100 data rows like those of [long_file], and one more. *)
Definition long_file_tail : file :=
  {| file_path := of_string "tail.txt"; st_size := 204;
     content := tsv (["A"] :: replicate 100 ["x"] ++ [["y"]])%string |}.

(** A data row with one value more than the header has columns. *)
Definition surplus_file : file :=
  {| file_path := of_string "surplus.txt"; st_size := 6;
     content := tsv [["A"]; ["1"; "2"]]%string |}.

(** A blank line between the header and the only data row. *)
Definition blank_line_file : file :=
  {| file_path := of_string "blank.txt"; st_size := 5;
     content := tsv [["A"]; []; ["1"]]%string |}.

(** The text has a character that is not white space. *)
Definition nonblank (s : str) : bool :=
  existsb (fun c => negb (isspace c)) s.

(** The cell of field [k] in the row counts as filled. *)
Definition cell_filled (k : key) (row : dict) : bool :=
  match dict_get row k with
  | Some (VStr s) => nonblank s
  | _ => false
  end.

(** The row has values beyond the header. *)
Definition has_surplus (row : dict) : Prop := is_Some (dict_get row None).

#[global] Instance has_surplus_dec (row : dict) : Decision (has_surplus row) :=
  decide (is_Some (dict_get row None)).

(** The sample texts field [k] offers in the rows, in order: the value
    of every filled cell, trimmed and cut at 50 characters. *)
Definition offered (k : key) (rows : list dict) : list str :=
  omap (fun row => slice_to 50 <$> (dict_get row k ≫= filled_text)) rows.

(** The sample texts a list of cells offers. *)
Definition texts (vs : list value) : list str :=
  omap (fun v => slice_to 50 <$> filled_text v) vs.

(** A row as [make_row] builds it: named cells, and the surplus, if any,
    last. *)
Definition row_shape (row : dict) : Prop :=
  Forall named_cell row
  ∨ ∃ d x l, Forall named_cell d ∧ row = d ++ [(None, VList (x :: l))].

(** The path the program analyses: its first argument, or the default. *)
Definition script_path (argv : list str) : str :=
  match argv with _ :: p :: _ => p | _ => default_path end.


(** One more record than lines to come only when a field is open. *)
Definition open_field (p : Csv.parser) : nat :=
  if negb (Nat.eqb (length (Csv.field p)) 0) || Csv.in_quoted p
  then 1%nat else 0%nat.

(** A decimal digit. *)
Definition is_digit (c : N) : Prop := (48 <= c <= 57)%N.

(** A file on a disk that holds it under every path. *)
Definition disk_of (f : file) : disk := fun _ => (st_size f, content f).

(** The csv reader gets to the end of the file: no field it reads is
    longer than [Csv.field_limit]. *)
Definition reads_to_end (f : file) : Prop :=
  (Csv.reader (readlines (content f))).2 = None.

(** The reader hands over the rows of the sample: 100 of them, or all
    there are. *)
Definition sample_read (f : file) : Prop :=
  (100 <= length (data_rows f))%nat ∨ reads_to_end f.

(** A value of one character more than a field may hold. *)
Definition long_value : str :=
  replicate (Z.to_nat (Csv.field_limit + 1)) 120%N.

(** A header, and one data row that is [long_value]. *)
Definition long_value_file : file :=
  {| file_path := of_string "long_value.txt"; st_size := 131076;
     content := of_string "A" ++ LF :: long_value ++ [LF] |}.

(** A header and nothing else. *)
Definition header_file : file :=
  {| file_path := of_string "header.txt"; st_size := 2;
     content := of_string "A" ++ [LF] |}.

(** ** Checks of the model on small inputs *)

Example readlines_universal_newlines :
  readlines (of_string "A" ++ [TAB] ++ of_string "B" ++ [CR; LF]
             ++ of_string "1" ++ [CR] ++ of_string "x")
  = [ of_string "A" ++ [TAB] ++ of_string "B" ++ [LF];
      of_string "1" ++ [LF]; of_string "x" ].
Proof. reflexivity. Qed.

Example format_thousands_checks :
  format_thousands 1234567 = of_string "1,234,567"
  ∧ format_thousands 123 = of_string "123"
  ∧ format_thousands (-1000) = of_string "-1,000"
  ∧ str_of_int 0 = of_string "0".
Proof. vm_compute. auto. Qed.

Example format_percent_checks :
  map (fun ab => format_fixed 1 (filled_pct ab.1 ab.2))
    [(1, 16); (3, 16); (1, 80); (2, 3); (1, 3); (0, 5); (100, 100);
     (1, 32); (7, 80); (1, 48); (5, 48); (0, 0)]
  = map of_string ["6.2"; "18.8"; "1.2"; "66.7"; "33.3"; "0.0"; "100.0";
                   "3.1"; "8.8"; "2.1"; "10.4"; "0.0"]%string.
Proof. vm_compute. reflexivity. Qed.

Example format_size_checks :
  map (fun n => format_fixed 2 (PyFloat (truediv n (1024 * 1024))))
    [65536; 1048576; 123456789; 5; 0]
  = map of_string ["0.06"; "1.00"; "117.74"; "0.00"; "0.00"]%string.
Proof. vm_compute. reflexivity. Qed.

Example reader_plain_lines :
  Csv.reader (readlines (tsv [["A"; "B"; "C"]; ["1"; ""; "3"]; [];
                              ["4"; "5"; ""]; ["x"]; ["a"; "b"; "c"; "d"]]%string))
  = (map (map of_string) [["A"; "B"; "C"]; ["1"; ""; "3"]; [];
                          ["4"; "5"; ""]; ["x"]; ["a"; "b"; "c"; "d"]]%string,
     None).
Proof. vm_compute. reflexivity. Qed.

(** A quoted field keeps a TAB, a doubled quote and a line break. *)
Example reader_quoted_field :
  Csv.reader (readlines ([QUOTE] ++ of_string "a" ++ [TAB] ++ of_string "b"
                         ++ [QUOTE; QUOTE] ++ [LF] ++ of_string "c" ++ [QUOTE]
                         ++ [TAB] ++ of_string "d" ++ [LF]))
  = ([[ of_string "a" ++ [TAB] ++ of_string "b" ++ [QUOTE] ++ [LF] ++ of_string "c";
        of_string "d" ]], None).
Proof. vm_compute. reflexivity. Qed.

Example make_row_checks :
  make_row (map of_string ["A"; "B"; "A"; "C"]%string)
           (map of_string ["1"; "2"; "3"]%string)
  = [ (Some (of_string "A"), VStr (of_string "3"));
      (Some (of_string "B"), VStr (of_string "2"));
      (Some (of_string "C"), VNone) ]
  ∧ make_row (map of_string ["A"; "B"; "A"]%string)
             (map of_string ["1"; "2"]%string)
    = [ (Some (of_string "A"), VNone);
        (Some (of_string "B"), VStr (of_string "2")) ]
  ∧ make_row (map of_string ["A"]%string)
             (map of_string ["1"; "2"; "3"]%string)
    = [ (Some (of_string "A"), VStr (of_string "1"));
        (None, VList (map of_string ["2"; "3"]%string)) ].
Proof. vm_compute. auto. Qed.

(** The pass stops after 100 of the 150 rows. *)
Example long_file_sampled :
  (analyze_voter_file long_file).2
  = Ok (100, {[ Some (of_string "A") :=
                  {| filled := 100; empty := 0;
                     samples := {[ of_string "x" ]} |} ]})
  ∧ (count_total_rows long_file).2 = Ok 150.
Proof. split; vm_compute; reflexivity. Qed.

(** A value beyond the header stops the pass: a list has no [strip]. *)
Example surplus_file_raises :
  analyze_voter_file surplus_file
  = (preamble surplus_file ++ listing [of_string "A"], Raise AttributeError).
Proof. vm_compute. reflexivity. Qed.

(** A blank line is a line for [count_total_rows] and no row for the
    [DictReader]. *)
Example blank_line_file_counts :
  (count_total_rows blank_line_file).2 = Ok 2
  ∧ length (data_rows blank_line_file) = 1%nat
  ∧ (analyze_voter_file blank_line_file).2
    = Ok (1, {[ Some (of_string "A") :=
                  {| filled := 1; empty := 0;
                     samples := {[ of_string "1" ]} |} ]}).
Proof. repeat split; vm_compute; reflexivity. Qed.

(** The program on the scenario: declined, the prompt is the last thing
    written; with Y the total is. *)
Example main_on_scenario :
  (main [of_string "analyze"; of_string "voters.txt"] (disk_of scenario)
        (of_string "n")).2 = Ok tt
  ∧ last (main [of_string "analyze"; of_string "voters.txt"] (disk_of scenario)
               (of_string "n")).1 = Some (Ask count_prompt)
  ∧ last (main [of_string "analyze"] (disk_of scenario) (of_string "Y")).1
    = Some (Out (Line (of_string "Total voter records: 3")))
  ∧ (main [of_string "analyze"] (disk_of scenario) (of_string "yes")).2 = Ok tt
  ∧ last (main [of_string "analyze"] (disk_of scenario) (of_string "yes")).1
    = Some (Ask count_prompt).
Proof. repeat split; vm_compute; reflexivity. Qed.

(** ** Reading lines *)

Section lines.

Lemma translate_newlines_line (l rest : str) :
  Forall (fun c => c ≠ CR) l ->
  translate_newlines (l ++ LF :: rest) = l ++ LF :: translate_newlines rest.
Proof.
  induction 1 as [|c l Hc _ IH]; simpl.
  - reflexivity.
  - apply N.eqb_neq in Hc. rewrite Hc, IH. reflexivity.
Qed.

Lemma lines_from_line (cur l rest : str) :
  Forall (fun c => c ≠ LF) l ->
  lines_from cur (l ++ LF :: rest) = (cur ++ l ++ [LF]) :: lines_from [] rest.
Proof.
  intros Hl. revert cur.
  induction Hl as [|c l Hc _ IH]; intros cur; simpl.
  - reflexivity.
  - apply N.eqb_neq in Hc. rewrite Hc, IH, <- !app_assoc. reflexivity.
Qed.

Lemma readlines_line (l rest : str) :
  plain l -> readlines (l ++ LF :: rest) = (l ++ [LF]) :: readlines rest.
Proof.
  intros Hl. unfold readlines.
  rewrite translate_newlines_line by (eapply Forall_impl; [exact Hl | simpl; tauto]).
  rewrite lines_from_line by (eapply Forall_impl; [exact Hl | simpl; tauto]).
  reflexivity.
Qed.

Lemma readlines_lines (ls : list str) :
  Forall plain ls ->
  readlines (concat (map (fun l => l ++ [LF]) ls)) = map (fun l => l ++ [LF]) ls.
Proof.
  induction 1 as [|l ls Hl _ IH]; simpl.
  - reflexivity.
  - rewrite <- app_assoc. simpl. rewrite readlines_line by exact Hl.
    rewrite IH. reflexivity.
Qed.

(** A text without LF that is not empty is one line. *)
Lemma lines_from_last (cur l : str) :
  Forall (fun c => c ≠ LF) l -> cur ++ l ≠ [] ->
  lines_from cur l = [cur ++ l].
Proof.
  intros Hl. revert cur.
  induction Hl as [|c l Hc _ IH]; intros cur Hne; simpl.
  - rewrite app_nil_r in *. destruct cur; [congruence | reflexivity].
  - apply N.eqb_neq in Hc. rewrite Hc, IH, <- app_assoc; [reflexivity|].
    rewrite <- app_assoc. exact Hne.
Qed.

Lemma translate_newlines_plain (l : str) :
  Forall (fun c => c ≠ CR) l -> translate_newlines l = l.
Proof.
  induction 1 as [|c l Hc _ IH]; simpl; [reflexivity|].
  apply N.eqb_neq in Hc. rewrite Hc, IH. reflexivity.
Qed.

Lemma readlines_last (l : str) :
  plain l -> l ≠ [] -> readlines l = [l].
Proof.
  intros Hl Hne. unfold readlines.
  rewrite translate_newlines_plain by (eapply Forall_impl; [exact Hl | simpl; tauto]).
  apply (lines_from_last []); [eapply Forall_impl; [exact Hl | simpl; tauto] | exact Hne].
Qed.

Lemma translate_newlines_no_cr (s : str) :
  Forall (fun c => c ≠ CR) (translate_newlines s).
Proof.
  induction s as [s IH] using (induction_ltof1 _ (@length N)).
  unfold ltof in IH. destruct s as [|c r]; simpl; [constructor|].
  destruct (N.eqb_spec c CR) as [->|Hc].
  - destruct r as [|c' r']; [repeat constructor; discriminate|].
    destruct (N.eqb_spec c' LF).
    + constructor; [discriminate | apply IH; simpl; lia].
    + constructor; [discriminate | apply IH; simpl; lia].
  - constructor; [exact Hc | apply IH; simpl; lia].
Qed.

Lemma lines_from_wf (cur s : str) :
  plain cur -> Forall (fun c => c ≠ CR) s ->
  Forall wf_line (lines_from cur s).
Proof.
  intros Hcur Hs. revert cur Hcur.
  induction Hs as [|c r Hc _ IH]; intros cur Hcur; simpl.
  - destruct cur; constructor; [|constructor].
    exists (n :: cur). split; [exact Hcur | right; reflexivity].
  - destruct (N.eqb_spec c LF) as [->|Hlf].
    + constructor.
      * exists cur. split; [exact Hcur | left; reflexivity].
      * apply IH. constructor.
    + apply IH. apply Forall_app. split; [exact Hcur|].
      constructor; [split; assumption | constructor].
Qed.

Lemma readlines_wf (s : str) : Forall wf_line (readlines s).
Proof.
  apply lines_from_wf; [constructor | apply translate_newlines_no_cr].
Qed.

End lines.

(** ** The csv automaton on the lines of a text file *)

Section csv.

Import Csv.

Lemma feed_line_app (p : parser) (a b : str) :
  feed_line p (a ++ b)
  = match run p a with Ok p' => feed_line p' b | Raise e => Raise e end.
Proof.
  revert p. induction a as [|c a IH]; intros p; simpl; [reflexivity|].
  destruct (parse_process_char p (Some c)); [apply IH | reflexivity].
Qed.

Lemma is_newline_false (c : N) : c ≠ LF -> c ≠ CR -> is_newline c = false.
Proof.
  intros H1 H2. unfold is_newline.
  apply N.eqb_neq in H1, H2. rewrite H1, H2. reflexivity.
Qed.

(** Whatever the automaton raises is [csv.Error]. *)
Lemma process_char_exn (p : parser) (c : option N) (e : exn) :
  parse_process_char p c = Raise e -> e = CsvError.
Proof.
  unfold parse_process_char, start_field, add_then, parse_add_char.
  repeat case_match; congruence.
Qed.

Lemma feed_line_exn (p : parser) (l : str) (e : exn) :
  feed_line p l = Raise e -> e = CsvError.
Proof.
  revert p. induction l as [|c l IH]; intros p; simpl.
  - apply process_char_exn.
  - destruct (parse_process_char p (Some c)) eqn:E; [apply IH|].
    intros [= <-]. exact (process_char_exn _ _ _ E).
Qed.

Lemma records_from_exn (p : parser) (lines : list str) (e : exn) :
  (records_from p lines).2 = Some e -> e = CsvError.
Proof.
  revert p. induction lines as [|l lines IH]; intros p; simpl.
  - case_match; discriminate.
  - destruct (feed_line p l) as [p'|e'] eqn:E.
    + destruct (state p'); try apply IH.
      specialize (IH parse_reset).
      destruct (records_from parse_reset lines). exact IH.
    + simpl. intros [= <-]. exact (feed_line_exn _ _ _ E).
Qed.

(** One character: away from a line break it is taken, or refused
    because the field is full. *)
Lemma process_char_spec (p : parser) (c : N) :
  state p ≠ EAT_CRNL ->
  match parse_process_char p (Some c) with
  | Ok p' =>
      (is_newline c = false -> state p' ≠ EAT_CRNL)
      ∧ (length (field p') <= S (length (field p)))%nat
  | Raise e => e = CsvError ∧ field_limit <= Z.of_nat (length (field p))
  end.
Proof.
  intros Hst. unfold parse_process_char, start_field, add_then, parse_add_char.
  destruct (state p) eqn:E; try congruence;
    repeat case_match; simplify_eq; simpl;
    rewrite ?length_app; simpl;
    repeat split; try congruence; try lia.
Qed.

Lemma process_eol_state (p : parser) :
  ∃ p', parse_process_char p None = Ok p'
        ∧ (state p' = START_RECORD ∨ in_quoted p' = true)
        ∧ (length (field p') <= length (field p))%nat.
Proof.
  unfold parse_process_char, start_field, in_quoted.
  destruct (state p) eqn:E; eexists; (split; [reflexivity|]); simpl;
    rewrite ?E; split; auto; lia.
Qed.

Lemma in_quoted_state (p : parser) :
  state p = START_RECORD ∨ in_quoted p = true -> state p ≠ EAT_CRNL.
Proof.
  unfold in_quoted. intros [H | H]; destruct (state p); congruence.
Qed.

Lemma run_plain (p : parser) (body : str) :
  plain body -> state p ≠ EAT_CRNL ->
  match run p body with
  | Ok p' =>
      state p' ≠ EAT_CRNL
      ∧ (length (field p') <= length (field p) + length body)%nat
  | Raise e =>
      e = CsvError
      ∧ field_limit < Z.of_nat (length (field p) + length body)
  end.
Proof.
  intros Hb. revert p.
  induction Hb as [|c body [H1 H2] _ IH]; intros p Hst; simpl.
  - split; [exact Hst | lia].
  - pose proof (process_char_spec p c Hst) as Hc.
    destruct (parse_process_char p (Some c)) as [p'|e].
    + destruct Hc as [Hst' Hlen].
      specialize (IH p' (Hst' (is_newline_false c H1 H2))).
      destruct (run p' body) as [p''|e].
      * destruct IH as [? ?]. split; [assumption | lia].
      * destruct IH as [? ?]. split; [assumption | lia].
    + destruct Hc as [? ?]. split; [assumption | lia].
Qed.

(** A line: it is read, or a field is full. *)
Lemma feed_line_spec (p : parser) (l : str) :
  wf_line l -> state p ≠ EAT_CRNL ->
  match feed_line p l with
  | Ok p' =>
      (state p' = START_RECORD ∨ in_quoted p' = true)
      ∧ (length (field p') <= length (field p) + length l)%nat
  | Raise e =>
      e = CsvError ∧ field_limit < Z.of_nat (length (field p) + length l)
  end.
Proof.
  intros (body & Hb & [-> | ->]) Hst.
  - rewrite feed_line_app, length_app. simpl length.
    pose proof (run_plain p body Hb Hst) as Hr.
    destruct (run p body) as [p1|e].
    + destruct Hr as [Hst1 Hlen1]. simpl.
      pose proof (process_char_spec p1 LF Hst1) as Hc.
      destruct (parse_process_char p1 (Some LF)) as [p2|e].
      * destruct Hc as [_ Hlen2].
        destruct (process_eol_state p2) as (p3 & -> & Hs & Hlen3).
        split; [exact Hs | lia].
      * destruct Hc as [? ?]. split; [assumption | lia].
    + destruct Hr as [? ?]. split; [assumption | lia].
  - rewrite <- (app_nil_r body), feed_line_app, app_nil_r.
    pose proof (run_plain p body Hb Hst) as Hr.
    destruct (run p body) as [p1|e].
    + destruct Hr as [Hst1 Hlen1]. simpl.
      destruct (process_eol_state p1) as (p3 & -> & Hs & Hlen3).
      split; [exact Hs | lia].
    + exact Hr.
Qed.

(** The reader gets to the end of lines that hold no more characters
    than a field may. *)
Lemma records_from_within (p : parser) (lines : list str) :
  Forall wf_line lines -> state p ≠ EAT_CRNL ->
  Z.of_nat (length (field p) + length (concat lines)) <= field_limit ->
  (records_from p lines).2 = None.
Proof.
  intros Hl. revert p.
  induction Hl as [|l lines Hwf _ IH]; intros p Hst Hlen; simpl.
  - case_match; reflexivity.
  - simpl in Hlen. rewrite length_app in Hlen.
    pose proof (feed_line_spec p l Hwf Hst) as Hf.
    destruct (feed_line p l) as [p'|e]; [|destruct Hf; lia].
    destruct Hf as [Hs Hlen'].
    pose proof (in_quoted_state p' Hs) as Hst'.
    destruct (state p') eqn:E; try (apply IH; [congruence | lia]).
    specialize (IH parse_reset).
    destruct (records_from parse_reset lines) as [rs e]. simpl in *.
    apply IH; [discriminate | lia].
Qed.

Lemma lines_from_concat (cur s : str) :
  concat (lines_from cur s) = cur ++ s.
Proof.
  revert cur. induction s as [|c s IH]; intros cur; simpl.
  - destruct cur; simpl; rewrite ?app_nil_r; reflexivity.
  - case_match; simpl; rewrite IH, <- ?app_assoc; reflexivity.
Qed.

Lemma translate_newlines_length (s : str) :
  (length (translate_newlines s) <= length s)%nat.
Proof.
  assert (∀ (n : nat) (t : str), (length t <= n)%nat ->
            (length (translate_newlines t) <= length t)%nat) as Hn.
  { induction n as [|n IH]; intros [|c [|d r]] Hl; simpl in Hl; try lia;
      try (simpl; lia).
    - simpl. destruct (c =? CR)%N; simpl; lia.
    - pose proof (IH r ltac:(lia)) as H1.
      pose proof (IH (d :: r) ltac:(simpl; lia)) as H2.
      simpl in *. repeat case_match; simpl in *; lia. }
  exact (Hn (length s) s (Nat.le_refl _)).
Qed.

(** A text of no more characters than a field may hold is read to its
    end. *)
Lemma reader_short_text (content : str) :
  Z.of_nat (length content) <= field_limit ->
  (reader (readlines content)).2 = None.
Proof.
  intros Hlen.
  apply records_from_within; [apply readlines_wf | discriminate |].
  unfold readlines. rewrite lines_from_concat. simpl.
  pose proof (translate_newlines_length content). lia.
Qed.

(** A file with a line has a first record, unless a field of it is
    full before. *)
Lemma records_from_nonempty (p : parser) (lines : list str) :
  Forall wf_line lines -> state p ≠ EAT_CRNL ->
  lines ≠ [] ∨ in_quoted p = true ->
  (records_from p lines).1 ≠ [] ∨ (records_from p lines).2 = Some CsvError.
Proof.
  intros Hl. revert p.
  induction Hl as [|l lines Hwf _ IH]; intros p Hst Hne; simpl.
  - destruct Hne as [Hne | ->]; [congruence|].
    rewrite orb_true_r. left. discriminate.
  - pose proof (feed_line_spec p l Hwf Hst) as Hf.
    destruct (feed_line p l) as [p'|e].
    + destruct Hf as [[Hs | Hq] _].
      * rewrite Hs. destruct (records_from parse_reset lines).
        left. discriminate.
      * assert (state p' = IN_QUOTED_FIELD) as Hs
          by (unfold in_quoted in Hq; destruct (state p'); congruence).
        rewrite Hs. apply IH; [congruence | right; exact Hq].
    + destruct Hf as [-> _]. right. reflexivity.
Qed.

Lemma lines_from_nonempty (cur s : str) :
  cur ≠ [] ∨ s ≠ [] -> lines_from cur s ≠ [].
Proof.
  revert cur. induction s as [|c s IH]; intros cur Hne; simpl.
  - destruct cur; [destruct Hne; congruence | discriminate].
  - case_match; [discriminate|]. apply IH. left. destruct cur; discriminate.
Qed.

Lemma readlines_nonempty (content : str) :
  content ≠ [] -> readlines content ≠ [].
Proof.
  intros Hne. apply lines_from_nonempty. right.
  destruct content as [|c r]; [congruence|]. simpl.
  repeat case_match; discriminate.
Qed.

(** A file that is not empty has a header, unless a field of its first
    record is full. *)
Lemma fieldnames_nonempty (content : str) :
  content ≠ [] ->
  (∃ names, fieldnames (reader (readlines content)) = Ok (Some names))
  ∨ reader (readlines content) = ([], Some CsvError).
Proof.
  intros Hne.
  pose proof (records_from_nonempty parse_reset (readlines content)
                (readlines_wf content) ltac:(discriminate)
                (or_introl (readlines_nonempty content Hne))) as Hrec.
  unfold reader, fieldnames.
  destruct (records_from parse_reset (readlines content)) as [[|names rs] e];
    simpl in Hrec.
  - right. destruct Hrec as [Hrec | ->]; [congruence | reflexivity].
  - left. eauto.
Qed.

End csv.

(** ** The header line *)

Section header.

Import Csv.

Lemma run_in_field (fs : list str) (fld r : str) :
  Forall (fun c => c ≠ TAB ∧ c ≠ LF ∧ c ≠ CR) r ->
  Z.of_nat (length fld + length r) <= field_limit ->
  run {| state := IN_FIELD; field := fld; fields := fs |} r
  = Ok {| state := IN_FIELD; field := fld ++ r; fields := fs |}.
Proof.
  intros Hr. revert fld.
  induction Hr as [|c r (Ht & Hl & Hc) _ IH]; intros fld Hlen; simpl.
  - rewrite app_nil_r. reflexivity.
  - unfold parse_process_char. simpl.
    rewrite (is_newline_false c Hl Hc).
    apply N.eqb_neq in Ht. rewrite Ht.
    unfold parse_add_char. simpl in *.
    destruct (Z.leb_spec field_limit (Z.of_nat (length fld))); [lia|].
    rewrite IH, <- app_assoc; [reflexivity|].
    rewrite length_app. simpl. lia.
Qed.

(** A field is refused at the character that takes it beyond the
    limit. *)
Lemma run_in_field_over (fs : list str) (fld r : str) :
  Forall (fun c => c ≠ TAB ∧ c ≠ LF ∧ c ≠ CR) r ->
  Z.of_nat (length fld) <= field_limit ->
  field_limit < Z.of_nat (length fld + length r) ->
  run {| state := IN_FIELD; field := fld; fields := fs |} r = Raise CsvError.
Proof.
  intros Hr. revert fld.
  induction Hr as [|c r (Ht & Hl & Hc) _ IH]; intros fld Hle Hlt; simpl.
  - simpl in Hlt. lia.
  - unfold parse_process_char. simpl.
    rewrite (is_newline_false c Hl Hc).
    apply N.eqb_neq in Ht. rewrite Ht.
    unfold parse_add_char. simpl in *.
    destruct (Z.leb_spec field_limit (Z.of_nat (length fld))); [reflexivity|].
    apply IH; rewrite length_app; simpl; lia.
Qed.

Lemma run_name (fs : list str) (nm : str) :
  plain_name nm ->
  run {| state := START_FIELD; field := []; fields := fs |} nm
  = Ok (after_name fs nm).
Proof.
  intros (Hall & Hq & Hlen). destruct nm as [|c r]; [reflexivity|].
  apply Forall_cons in Hall as [(Ht & Hl & Hc) Hr]. simpl in *.
  unfold parse_process_char, start_field. simpl.
  rewrite (is_newline_false c Hl Hc).
  assert (c ≠ QUOTE) as Hq' by congruence.
  apply N.eqb_neq in Ht, Hq'. rewrite Ht, Hq'.
  unfold add_then, set_state, parse_add_char. simpl.
  apply (run_in_field fs [c] r Hr). simpl. lia.
Qed.

(** A value longer than a field may be stops the reader. *)
Lemma run_long_value (fs : list str) (v : str) :
  Forall (fun c => c ≠ TAB ∧ c ≠ LF ∧ c ≠ CR) v -> head v ≠ Some QUOTE ->
  field_limit < Z.of_nat (length v) ->
  run {| state := START_FIELD; field := []; fields := fs |} v
  = Raise CsvError.
Proof.
  intros Hall Hq Hlen. destruct v as [|c r]; [simpl in Hlen; unfold field_limit in Hlen; lia|].
  apply Forall_cons in Hall as [(Ht & Hl & Hc) Hr]. simpl in *.
  unfold parse_process_char, start_field. simpl.
  rewrite (is_newline_false c Hl Hc).
  assert (c ≠ QUOTE) as Hq' by congruence.
  apply N.eqb_neq in Ht, Hq'. rewrite Ht, Hq'.
  unfold add_then, set_state, parse_add_char. simpl.
  apply (run_in_field_over fs [c] r Hr); unfold field_limit in *; simpl; lia.
Qed.

Lemma after_name_tab (fs : list str) (nm : str) :
  parse_process_char (after_name fs nm) (Some TAB)
  = Ok {| state := START_FIELD; field := []; fields := fs ++ [nm] |}.
Proof. destruct nm; reflexivity. Qed.

Lemma after_name_end (fs : list str) (nm tl : str) :
  tl = [] ∨ tl = [LF] ->
  feed_line (after_name fs nm) tl
  = Ok {| state := START_RECORD; field := []; fields := fs ++ [nm] |}.
Proof. intros [-> | ->]; destruct nm; reflexivity. Qed.

Lemma feed_names (names : list str) (fs : list str) (tl : str) :
  names ≠ [] -> Forall plain_name names -> tl = [] ∨ tl = [LF] ->
  feed_line {| state := START_FIELD; field := []; fields := fs |}
            (join [TAB] names ++ tl)
  = Ok {| state := START_RECORD; field := []; fields := fs ++ names |}.
Proof.
  intros Hne Hall Htl. revert fs.
  induction Hall as [|nm names Hnm Hall IH]; intros fs; [congruence|].
  destruct names as [|nm' names'].
  - simpl. rewrite feed_line_app, run_name by exact Hnm.
    apply after_name_end, Htl.
  - change (join [TAB] (nm :: nm' :: names'))
      with (nm ++ [TAB] ++ join [TAB] (nm' :: names')).
    rewrite <- !app_assoc, feed_line_app, run_name by exact Hnm.
    simpl. rewrite after_name_tab, IH by discriminate.
    rewrite <- app_assoc. reflexivity.
Qed.

Lemma start_record_as_start_field (c : N) (l : str) :
  is_newline c = false ->
  feed_line parse_reset (c :: l)
  = feed_line {| state := START_FIELD; field := []; fields := [] |} (c :: l).
Proof.
  intros Hc. simpl. unfold parse_process_char, start_field. simpl.
  rewrite Hc. unfold add_then, parse_add_char. simpl.
  repeat case_match; simplify_eq; reflexivity.
Qed.

Lemma join_chars (names : list str) (c : N) :
  Forall plain_name names -> c ∈ join [TAB] names -> c ≠ LF ∧ c ≠ CR.
Proof.
  induction 1 as [|nm names [Hnm _] Hall IH]; simpl.
  - intros H. inversion H.
  - assert (c ∈ nm -> c ≠ LF ∧ c ≠ CR) as Hin.
    { intros H. rewrite Forall_forall in Hnm. destruct (Hnm c H) as (_ & ? & ?).
      split; assumption. }
    destruct names as [|nm' names'].
    + exact Hin.
    + rewrite elem_of_app, elem_of_cons.
      intros [H | [-> | H]]; [auto | split; discriminate | auto].
Qed.

(** The first record of the reader is the list of the column names. *)
Lemma feed_header (names : list str) (tl : str) :
  Forall plain_name names -> join [TAB] names ≠ [] -> tl = [] ∨ tl = [LF] ->
  feed_line parse_reset (join [TAB] names ++ tl)
  = Ok {| state := START_RECORD; field := []; fields := names |}.
Proof.
  intros Hall Hne Htl.
  assert (names ≠ []) as Hnames by (intros ->; apply Hne; reflexivity).
  destruct (join [TAB] names) as [|c l] eqn:E; [congruence|].
  assert (c ≠ LF ∧ c ≠ CR) as [H1 H2].
  { apply (join_chars names c Hall). rewrite E. left. }
  simpl app. rewrite start_record_as_start_field by (apply is_newline_false; assumption).
  change (c :: l ++ tl) with ((c :: l) ++ tl). rewrite <- E.
  apply (feed_names names [] tl Hnames Hall Htl).
Qed.

Lemma fieldnames_header (f : file) (names : list str) (rest : str) :
  Forall plain_name names -> join [TAB] names ≠ [] ->
  content f = join [TAB] names ++ LF :: rest ∨ content f = join [TAB] names ->
  fieldnames (reader (readlines (content f))) = Ok (Some names).
Proof.
  intros Hall Hne Hc.
  assert (plain (join [TAB] names)) as Hp.
  { apply Forall_forall. intros c Hin. exact (join_chars names c Hall Hin). }
  destruct Hc as [-> | ->].
  - rewrite readlines_line by exact Hp. unfold reader. simpl records_from.
    rewrite (feed_header names [LF]) by auto. simpl.
    destruct (records_from parse_reset (readlines rest)). reflexivity.
  - rewrite readlines_last by assumption. unfold reader. simpl records_from.
    pose proof (feed_header names [] Hall Hne (or_introl eq_refl)) as H.
    rewrite app_nil_r in H. rewrite H. reflexivity.
Qed.

(** A value longer than a field may be, in the first data line: the
    reader yields the header and then raises. *)
Lemma reader_long_value (names : list str) (v rest : str) :
  Forall plain_name names -> join [TAB] names ≠ [] ->
  Forall (fun c => c ≠ TAB ∧ c ≠ LF ∧ c ≠ CR) v -> head v ≠ Some QUOTE ->
  field_limit < Z.of_nat (length v) ->
  reader (readlines (join [TAB] names ++ LF :: v ++ LF :: rest))
  = ([names], Some CsvError).
Proof.
  intros Hall Hne Hv Hq Hlen.
  assert (plain (join [TAB] names)) as Hp.
  { apply Forall_forall. intros c Hin. exact (join_chars names c Hall Hin). }
  assert (plain v) as Hpv.
  { eapply Forall_impl; [exact Hv | simpl; tauto]. }
  rewrite readlines_line by exact Hp.
  rewrite readlines_line by exact Hpv.
  unfold reader. cbn [records_from].
  rewrite (feed_header names [LF]) by auto. cbn [state].
  cbn [records_from].
  assert (feed_line parse_reset (v ++ [LF]) = Raise CsvError) as ->; [|reflexivity].
  destruct v as [|c l] eqn:E; [simpl in Hlen; unfold field_limit in Hlen; lia|].
  rewrite <- E in *.
  assert (is_newline c = false) as Hc.
  { rewrite E in Hv. apply Forall_cons in Hv as [(_ & ? & ?) _].
    apply is_newline_false; assumption. }
  rewrite E at 1. simpl app.
  rewrite start_record_as_start_field by exact Hc.
  change (c :: l ++ [LF]) with ((c :: l) ++ [LF]). rewrite <- E.
  rewrite feed_line_app, run_long_value by assumption. reflexivity.
Qed.

End header.

(** ** Rows as dictionaries *)

Section dicts.

Lemma dict_get_set (d : dict) (k k' : key) (v : value) :
  dict_get (dict_set d k v) k'
  = if decide (k = k') then Some v else dict_get d k'.
Proof.
  induction d as [|[k0 v0] d IH]; simpl.
  - reflexivity.
  - destruct (decide (k0 = k)) as [->|Hne]; simpl.
    + destruct (decide (k = k')); reflexivity.
    + rewrite IH. destruct (decide (k0 = k')) as [->|]; [|reflexivity].
      destruct (decide (k = k')); [congruence | reflexivity].
Qed.

Lemma dict_get_is_Some (d : dict) (k : key) :
  is_Some (dict_get d k) ↔ k ∈ d.*1.
Proof.
  induction d as [|[k0 v0] d IH]; simpl.
  - split; [intros [? ?]; discriminate | intros H; inversion H].
  - rewrite elem_of_cons. destruct (decide (k0 = k)) as [->|Hne].
    + split; [auto | eauto].
    + rewrite IH. split; [auto | intros [?|?]; [congruence | assumption]].
Qed.

Lemma dict_get_None (d : dict) (k : key) :
  dict_get d k = None ↔ k ∉ d.*1.
Proof.
  rewrite <- dict_get_is_Some, eq_None_not_Some. reflexivity.
Qed.

Lemma dict_get_elem_of (d : dict) (k : key) (v : value) :
  dict_get d k = Some v -> (k, v) ∈ d.
Proof.
  induction d as [|[k0 v0] d IH]; simpl; [discriminate|].
  destruct (decide (k0 = k)) as [->|Hne].
  - intros [= ->]. left.
  - intros H. right. auto.
Qed.

Lemma elem_of_dict_get (d : dict) (k : key) (v : value) :
  NoDup d.*1 -> (k, v) ∈ d -> dict_get d k = Some v.
Proof.
  induction d as [|[k0 v0] d IH]; simpl.
  - intros _ H. inversion H.
  - rewrite NoDup_cons, elem_of_cons. intros [Hk0 Hnd] [[= -> ->] | Hin].
    + rewrite decide_True; reflexivity.
    + rewrite decide_False; [auto|].
      intros ->. apply Hk0. apply list_elem_of_fmap. exists (k, v). auto.
Qed.

Lemma dict_set_fresh (d : dict) (k : key) (v : value) :
  k ∉ d.*1 -> dict_set d k v = d ++ [(k, v)].
Proof.
  induction d as [|[k0 v0] d IH]; simpl; [reflexivity|].
  rewrite not_elem_of_cons. intros [Hne Hd].
  rewrite decide_False by congruence. rewrite IH by exact Hd. reflexivity.
Qed.

Lemma dict_set_keys (d : dict) (k : key) (v : value) :
  (dict_set d k v).*1 = if decide (k ∈ d.*1) then d.*1 else d.*1 ++ [k].
Proof.
  induction d as [|[k0 v0] d IH]; cbn [dict_set].
  - rewrite decide_False by (intros H; inversion H). reflexivity.
  - rewrite (fmap_cons fst ((k0, v0)) d). cbn [fst].
    destruct (decide (k0 = k)) as [->|Hne].
    + rewrite fmap_cons. cbn [fst]. rewrite decide_True by left. reflexivity.
    + rewrite fmap_cons, IH. cbn [fst].
      destruct (decide (k ∈ d.*1)) as [Hin|Hin].
      * rewrite decide_True by (right; exact Hin). reflexivity.
      * rewrite decide_False; [reflexivity|].
        rewrite not_elem_of_cons. split; [congruence | exact Hin].
Qed.

Lemma dict_set_NoDup (d : dict) (k : key) (v : value) :
  NoDup d.*1 -> NoDup (dict_set d k v).*1.
Proof.
  intros Hnd. rewrite dict_set_keys. case_decide; [exact Hnd|].
  apply NoDup_app. split; [exact Hnd|]. split.
  - intros x Hx Hx'. apply list_elem_of_singleton in Hx'. congruence.
  - apply NoDup_singleton.
Qed.

Lemma dict_set_Forall (P : key * value -> Prop) (d : dict) (k : key) (v : value) :
  Forall P d -> P (k, v) -> Forall P (dict_set d k v).
Proof.
  intros Hd Hkv. induction Hd as [|[k0 v0] d H0 Hd IH]; simpl.
  - repeat constructor. exact Hkv.
  - case_decide; constructor; assumption.
Qed.

(** Storing a list of cells one after the other. *)
Section stores.

Context {A : Type} (kf : A -> key) (vf : A -> value).

Let store (d : dict) (a : A) : dict := dict_set d (kf a) (vf a).

Lemma stores_NoDup (l : list A) (d : dict) :
  NoDup d.*1 -> NoDup (foldl store d l).*1.
Proof.
  revert d. induction l as [|a l IH]; intros d Hd; simpl; [exact Hd|].
  apply IH, dict_set_NoDup, Hd.
Qed.

Lemma stores_Forall (P : key * value -> Prop) (l : list A) (d : dict) :
  Forall P d -> (∀ a, a ∈ l -> P (kf a, vf a)) -> Forall P (foldl store d l).
Proof.
  revert d. induction l as [|a l IH]; intros d Hd Hl; simpl; [exact Hd|].
  apply IH.
  - apply dict_set_Forall; [exact Hd | apply Hl; left].
  - intros a' Ha'. apply Hl. right. exact Ha'.
Qed.

Lemma stores_keys (l : list A) (d : dict) (k : key) :
  k ∈ (foldl store d l).*1 ↔ k ∈ d.*1 ∨ k ∈ kf <$> l.
Proof.
  revert d. induction l as [|a l IH]; intros d; simpl.
  - split; [auto | intros [H|H]; [exact H | inversion H]].
  - rewrite IH, elem_of_cons. unfold store at 1. rewrite dict_set_keys.
    change (list_fmap A key kf l) with (kf <$> l).
    case_decide as Hin.
    + split; [tauto | intros [?|[->|?]]; auto].
    + rewrite elem_of_app, list_elem_of_singleton. tauto.
Qed.

(** A key for which one value only is ever stored ends with it. *)
Lemma stores_get_keep (l : list A) (d : dict) (k : key) (v : value) :
  dict_get d k = Some v -> (∀ a, a ∈ l -> kf a = k -> vf a = v) ->
  dict_get (foldl store d l) k = Some v.
Proof.
  revert d. induction l as [|a l IH]; intros d Hd Hl; simpl; [exact Hd|].
  apply IH.
  - unfold store. rewrite dict_get_set. case_decide as Hk; [|exact Hd].
    f_equal. apply Hl; [left | exact Hk].
  - intros a' Ha'. apply Hl. right. exact Ha'.
Qed.

Lemma stores_get_in (l : list A) (d : dict) (k : key) (v : value) :
  k ∈ kf <$> l -> (∀ a, a ∈ l -> kf a = k -> vf a = v) ->
  dict_get (foldl store d l) k = Some v.
Proof.
  revert d. induction l as [|a l IH]; intros d Hin Hl; simpl.
  - inversion Hin.
  - destruct (decide (kf a = k)) as [Hk|Hk].
    + apply stores_get_keep.
      * unfold store. rewrite dict_get_set, decide_True by exact Hk.
        f_equal. apply Hl; [left | exact Hk].
      * intros a' Ha'. apply Hl. right. exact Ha'.
    + apply IH.
      * rewrite fmap_cons in Hin. apply elem_of_cons in Hin as [?|?]; [congruence | assumption].
      * intros a' Ha'. apply Hl. right. exact Ha'.
Qed.

Lemma stores_get_other (l : list A) (d : dict) (k : key) :
  k ∉ kf <$> l -> dict_get (foldl store d l) k = dict_get d k.
Proof.
  revert d. induction l as [|a l IH]; intros d; simpl; [reflexivity|].
  rewrite not_elem_of_cons. intros [Hne Hl]. rewrite IH by exact Hl.
  unfold store. rewrite dict_get_set, decide_False; congruence.
Qed.

End stores.

Lemma zip_fst_take {A B} (l : list A) (k : list B) :
  (zip l k).*1 = take (length k) l.
Proof.
  revert k. induction l as [|a l IH]; intros [|b k]; simpl; try reflexivity.
  f_equal. apply IH.
Qed.

Lemma zipped_keys (header row : list str) (k : key) :
  k ∈ (zipped header row).*1 ↔ k ∈ Some <$> take (length row) header.
Proof.
  unfold zipped.
  rewrite (stores_keys (fun kv => Some kv.1) (fun kv => VStr kv.2)).
  rewrite <- zip_fst_take, <- list_fmap_compose.
  split; [intros [H|H]; [inversion H | exact H] | auto].
Qed.

Lemma make_row_NoDup (header row : list str) :
  NoDup (make_row header row).*1.
Proof.
  unfold make_row. fold (zipped header row).
  assert (NoDup (zipped header row).*1) as Hz.
  { apply (stores_NoDup (fun kv => Some kv.1) (fun kv => VStr kv.2)). constructor. }
  repeat case_match.
  - apply dict_set_NoDup, Hz.
  - apply (stores_NoDup Some (fun _ => VNone)), Hz.
  - exact Hz.
Qed.

(** Every column of the header is a key of every row. *)
Lemma make_row_header (header row : list str) (name : str) :
  name ∈ header -> is_Some (dict_get (make_row header row) (Some name)).
Proof.
  intros Hin. apply dict_get_is_Some.
  unfold make_row. fold (zipped header row).
  destruct (length header <? length row)%nat eqn:E1;
    [|destruct (length row <? length header)%nat eqn:E2].
  - apply Nat.ltb_lt in E1. rewrite dict_set_keys.
    assert (Some name ∈ (zipped header row).*1) as Hz.
    { apply zipped_keys. rewrite take_ge by lia.
      apply list_elem_of_fmap. eauto. }
    case_decide; [exact Hz | apply elem_of_app; left; exact Hz].
  - apply (stores_keys Some (fun _ => VNone)).
    rewrite <- (take_drop (length row) header) in Hin.
    apply elem_of_app in Hin as [H|H].
    + left. apply zipped_keys, list_elem_of_fmap. eauto.
    + right. apply list_elem_of_fmap. eauto.
  - apply Nat.ltb_ge in E1, E2. apply zipped_keys.
    rewrite take_ge by lia. apply list_elem_of_fmap. eauto.
Qed.

(** A column the line does not reach holds [None]. *)
Lemma make_row_missing (header row : list str) (name : str) :
  name ∈ drop (length row) header ->
  dict_get (make_row header row) (Some name) = Some VNone.
Proof.
  intros Hin.
  assert (length row < length header)%nat as Hlt.
  { destruct (decide (length row < length header)%nat); [assumption|].
    rewrite drop_ge in Hin by lia. inversion Hin. }
  unfold make_row. fold (zipped header row).
  rewrite (proj2 (Nat.ltb_ge _ _)) by lia.
  rewrite (proj2 (Nat.ltb_lt _ _)) by lia.
  apply (stores_get_in Some (fun _ => VNone)); [|reflexivity].
  apply list_elem_of_fmap. eauto.
Qed.

Lemma zipped_named (header row : list str) :
  Forall named_cell (zipped header row).
Proof.
  apply (stores_Forall (fun kv => Some kv.1) (fun kv => VStr kv.2)); [constructor|].
  intros kv _. split; simpl; eauto.
Qed.

Lemma make_row_named (header row : list str) :
  (length row <= length header)%nat ->
  Forall named_cell (make_row header row).
Proof.
  intros Hle. unfold make_row. fold (zipped header row).
  rewrite (proj2 (Nat.ltb_ge _ _)) by lia.
  case_match; [|apply zipped_named].
  apply (stores_Forall Some (fun _ => VNone)); [apply zipped_named|].
  intros name _. split; simpl; eauto.
Qed.

(** A longer line gives the named cells, then the surplus under [None]. *)
Lemma make_row_surplus (header row : list str) :
  (length header < length row)%nat ->
  make_row header row
  = zipped header row ++ [(None, VList (drop (length header) row))].
Proof.
  intros Hlt. unfold make_row. fold (zipped header row).
  rewrite (proj2 (Nat.ltb_lt _ _)) by lia.
  apply dict_set_fresh. intros Hin.
  apply zipped_keys, list_elem_of_fmap in Hin as (x & Hx & _). discriminate.
Qed.

End dicts.

(** ** The sampling pass *)

Section sampling.

Lemma record_value_spec (fs : gmap key stat) (k : key) (v : value) :
  record_value fs k v
  = if surplus v then Raise AttributeError
    else Ok (<[k := bump (getitem fs k) v]> fs).
Proof.
  unfold record_value, bump, filled_text.
  destruct v as [|s|[|x l]]; simpl; try reflexivity.
  destruct s as [|c s]; [reflexivity|].
  destruct (strip (c :: s)); reflexivity.
Qed.

Lemma getitem_insert (fs : gmap key stat) (k k' : key) (st : stat) :
  getitem (<[k := st]> fs) k' = if decide (k = k') then st else getitem fs k'.
Proof.
  unfold getitem. rewrite lookup_insert. case_decide; reflexivity.
Qed.

(** One row: every key of the row gets one more cell, the others stay. *)
Lemma record_row_spec (items : dict) (fs fs' : gmap key stat) :
  NoDup items.*1 -> record_row items fs = Ok fs' ->
  ∀ k, fs' !! k = match dict_get items k with
                  | Some v => Some (bump (getitem fs k) v)
                  | None => fs !! k
                  end.
Proof.
  revert fs. induction items as [|[k0 v0] items IH]; intros fs Hnd Hrow k.
  - simpl in *. congruence.
  - cbn [record_row] in Hrow. rewrite record_value_spec in Hrow.
    destruct (surplus v0); [discriminate|].
    rewrite fmap_cons in Hnd. apply NoDup_cons in Hnd as [Hk0 Hnd].
    rewrite (IH _ Hnd Hrow k). cbn [dict_get fst].
    destruct (decide (k0 = k)) as [<-|Hne].
    + rewrite (proj2 (dict_get_None items k0) Hk0).
      apply lookup_insert_eq.
    + rewrite getitem_insert, decide_False by exact Hne.
      rewrite lookup_insert_ne by exact Hne. reflexivity.
Qed.

Lemma record_row_getitem (items : dict) (fs fs' : gmap key stat) (k : key) :
  NoDup items.*1 -> record_row items fs = Ok fs' ->
  getitem fs' k = match dict_get items k with
                  | Some v => bump (getitem fs k) v
                  | None => getitem fs k
                  end.
Proof.
  intros Hnd Hrow. unfold getitem at 1.
  rewrite (record_row_spec items fs fs' Hnd Hrow k).
  destruct (dict_get items k); reflexivity.
Qed.

(** A row without surplus values is recorded without an exception. *)
Lemma record_row_named (items : dict) (fs : gmap key stat) :
  Forall named_cell items -> ∃ fs', record_row items fs = Ok fs'.
Proof.
  intros Hall. revert fs.
  induction Hall as [|[k v] items [_ Hv] _ IH]; intros fs; simpl; [eauto|].
  rewrite record_value_spec.
  destruct Hv as [Hv | [s Hv]]; simpl in Hv; subst v; simpl; apply IH.
Qed.

(** When the loop is left normally it has recorded the first rows, up to
    the one numbered [sample_size], and [row_count] is their number. *)
Lemma sample_loop_spec (rows : list dict) (ending : option exn)
    (n rc0 : Z) (fs : gmap key stat) (rc : Z) (fs' : gmap key stat) :
  sample_loop rows ending n rc0 fs = Ok (rc, fs') -> n <= 100 ->
  let m := Nat.min (length rows) (Z.to_nat (101 - n)) in
  record_rows (take m rows) fs = Ok fs'
  ∧ rc = (if Nat.eqb m 0 then rc0 else n + Z.of_nat m - 1).
Proof.
  revert n rc0 fs. induction rows as [|row rest IH]; intros n rc0 fs Hloop Hn.
  - simpl in *. destruct ending; [discriminate|]. split; congruence.
  - cbn [sample_loop] in Hloop.
    destruct (record_row row fs) as [fs1|] eqn:Hrow; [|discriminate].
    assert (Z.to_nat (101 - n) = S (Z.to_nat (100 - n))) as Hm by lia.
    cbn [length]. rewrite Hm. cbn [Nat.min take record_rows Nat.eqb].
    rewrite Hrow. unfold sample_size in Hloop.
    destruct (Z.leb_spec 100 n).
    + assert (n = 100) as -> by lia. simpl Z.to_nat.
      rewrite Nat.min_0_r. cbn [take record_rows].
      injection Hloop as <- <-. split; [reflexivity | lia].
    + destruct (IH _ _ _ Hloop ltac:(lia)) as [Hrec Hrc].
      replace (101 - (n + 1)) with (100 - n) in * by lia.
      split; [exact Hrec|].
      rewrite Hrc. destruct (Nat.eqb_spec (Nat.min (length rest) (Z.to_nat (100 - n))) 0); lia.
Qed.

(** The loop is left normally when the rows it reads have no surplus
    values and the reader hands them over. *)
Lemma sample_loop_total (rows : list dict) (ending : option exn)
    (n rc0 : Z) (fs : gmap key stat) :
  n <= 100 ->
  Forall (Forall named_cell) (take (Z.to_nat (101 - n)) rows) ->
  (Z.to_nat (101 - n) <= length rows)%nat ∨ ending = None ->
  ∃ r, sample_loop rows ending n rc0 fs = Ok r.
Proof.
  revert n rc0 fs. induction rows as [|row rest IH]; intros n rc0 fs Hn Hall Hend.
  - simpl in *. destruct Hend as [Hend | ->]; [lia | eauto].
  - replace (Z.to_nat (101 - n)) with (S (Z.to_nat (101 - (n + 1)))) in Hall, Hend by lia.
    cbn [take] in Hall. apply Forall_cons in Hall as [Hrow Hrest].
    cbn [sample_loop].
    destruct (record_row_named row fs Hrow) as [fs1 ->].
    unfold sample_size. destruct (Z.leb_spec 100 n); [eauto|].
    apply IH; [lia | exact Hrest |].
    destruct Hend as [Hend | ->]; [left; simpl in Hend; lia | right; reflexivity].
Qed.

(** It is left normally only then: with fewer rows than [sample_size]
    the reader has got to the end of the file. *)
Lemma sample_loop_end (rows : list dict) (ending : option exn)
    (n rc0 : Z) (fs : gmap key stat) (r : Z * gmap key stat) :
  sample_loop rows ending n rc0 fs = Ok r -> n <= 100 ->
  (Z.to_nat (101 - n) <= length rows)%nat ∨ ending = None.
Proof.
  revert n rc0 fs. induction rows as [|row rest IH]; intros n rc0 fs Hloop Hn.
  - simpl in Hloop. destruct ending; [discriminate | right; reflexivity].
  - cbn [sample_loop] in Hloop.
    destruct (record_row row fs) as [fs1|]; [|discriminate].
    unfold sample_size in Hloop. destruct (Z.leb_spec 100 n).
    + left. simpl. lia.
    + destruct (IH _ _ _ Hloop ltac:(lia)) as [Hlen | ->];
        [left; simpl; lia | right; reflexivity].
Qed.

(** A reader that fails before [sample_size] rows stops the loop. *)
Lemma sample_loop_stopped (rows : list dict) (e : exn)
    (n rc0 : Z) (fs : gmap key stat) :
  n <= 100 -> Forall (Forall named_cell) rows ->
  (length rows < Z.to_nat (101 - n))%nat ->
  sample_loop rows (Some e) n rc0 fs = Raise e.
Proof.
  revert n rc0 fs. induction rows as [|row rest IH]; intros n rc0 fs Hn Hall Hlen.
  - reflexivity.
  - apply Forall_cons in Hall as [Hrow Hrest]. cbn [sample_loop].
    destruct (record_row_named row fs Hrow) as [fs1 ->].
    unfold sample_size. simpl in Hlen.
    destruct (Z.leb_spec 100 n); [lia|].
    apply IH; [lia | exact Hrest | lia].
Qed.

End sampling.

(** ** What a field has accumulated *)

Section accumulation.

Lemma record_rows_lookup (rows : list dict) (fs fs' : gmap key stat) (k : key) :
  Forall (fun row => NoDup row.*1) rows ->
  record_rows rows fs = Ok fs' ->
  fs' !! k = match cells k rows with
             | [] => fs !! k
             | vs => Some (foldl bump (getitem fs k) vs)
             end.
Proof.
  intros Hnd. revert fs.
  induction Hnd as [|row rows Hrow _ IH]; intros fs Hrec.
  - simpl in *. congruence.
  - cbn [record_rows] in Hrec.
    destruct (record_row row fs) as [fs1|] eqn:E; [|discriminate].
    rewrite (IH _ Hrec). unfold cells. cbn [omap list_omap].
    fold (cells k rows).
    pose proof (record_row_spec row fs fs1 Hrow E k) as H1.
    pose proof (record_row_getitem row fs fs1 k Hrow E) as H2.
    destruct (dict_get row k) as [v|]; cbn [foldl].
    + rewrite H2. destruct (cells k rows); [exact H1 | reflexivity].
    + rewrite H1, H2. reflexivity.
Qed.

Lemma record_rows_getitem (rows : list dict) (fs fs' : gmap key stat) (k : key) :
  Forall (fun row => NoDup row.*1) rows ->
  record_rows rows fs = Ok fs' ->
  getitem fs' k = foldl bump (getitem fs k) (cells k rows).
Proof.
  intros Hnd Hrec. unfold getitem at 1.
  rewrite (record_rows_lookup rows fs fs' k Hnd Hrec).
  destruct (cells k rows); reflexivity.
Qed.

Lemma cells_length_le (k : key) (rows : list dict) :
  (length (cells k rows) <= length rows)%nat.
Proof.
  induction rows as [|row rows IH]; simpl; [lia|].
  unfold cells in *. cbn [omap list_omap].
  destruct (dict_get row k); simpl; lia.
Qed.

Lemma cells_length (k : key) (rows : list dict) :
  Forall (fun row => is_Some (dict_get row k)) rows ->
  length (cells k rows) = length rows.
Proof.
  induction 1 as [|row rows [v Hv] _ IH]; [reflexivity|].
  unfold cells in *. cbn [omap list_omap]. rewrite Hv. simpl. lia.
Qed.

Lemma elem_of_cells (k : key) (rows : list dict) (v : value) :
  v ∈ cells k rows ↔ ∃ row, row ∈ rows ∧ dict_get row k = Some v.
Proof. apply list_elem_of_omap. Qed.

(** Counters: one more cell, one more count. *)
Lemma bumps_total (vs : list value) (st : stat) :
  filled (foldl bump st vs) + empty (foldl bump st vs)
  = filled st + empty st + Z.of_nat (length vs).
Proof.
  revert st. induction vs as [|v vs IH]; intros st; simpl; [lia|].
  rewrite IH. unfold bump. destruct (filled_text v); simpl; lia.
Qed.

Lemma bumps_mono (vs : list value) (st : stat) :
  filled st <= filled (foldl bump st vs) ∧ empty st <= empty (foldl bump st vs).
Proof.
  revert st. induction vs as [|v vs IH]; intros st; simpl; [lia|].
  destruct (IH (bump st v)) as [H1 H2].
  unfold bump in *. destruct (filled_text v); simpl in *; lia.
Qed.

(** Samples: at most three, each the trimmed text of a cell cut at 50. *)
Lemma bump_samples_size (st : stat) (v : value) :
  (size (samples st) <= 3)%nat -> (size (samples (bump st v)) <= 3)%nat.
Proof.
  intros Hsz. unfold bump. destruct (filled_text v) as [t|]; simpl; [|exact Hsz].
  destruct (Nat.ltb_spec (size (samples st)) 3) as [Hlt|Hge]; [|exact Hsz].
  rewrite size_union_alt.
  assert (size ({[slice_to 50 t]} ∖ samples st) <= 1)%nat as Hd.
  { transitivity (size ({[slice_to 50 t]} : gset str)).
    - apply subseteq_size, subseteq_difference_l. reflexivity.
    - rewrite size_singleton. reflexivity. }
  lia.
Qed.

Lemma bumps_samples_size (vs : list value) (st : stat) :
  (size (samples st) <= 3)%nat -> (size (samples (foldl bump st vs)) <= 3)%nat.
Proof.
  revert st. induction vs as [|v vs IH]; intros st Hsz; simpl; [exact Hsz|].
  apply IH, bump_samples_size, Hsz.
Qed.

Lemma bump_samples_elem (st : stat) (v : value) (x : str) :
  x ∈ samples (bump st v) ->
  x ∈ samples st ∨ ∃ t, filled_text v = Some t ∧ x = slice_to 50 t.
Proof.
  unfold bump. destruct (filled_text v) as [t|]; simpl; [|auto].
  case_match; [|auto].
  rewrite elem_of_union, elem_of_singleton. intros [?| ->]; eauto.
Qed.

Lemma bumps_samples_elem (vs : list value) (st : stat) (x : str) :
  x ∈ samples (foldl bump st vs) ->
  x ∈ samples st ∨ ∃ v t, v ∈ vs ∧ filled_text v = Some t ∧ x = slice_to 50 t.
Proof.
  revert st. induction vs as [|v vs IH]; intros st; simpl; [auto|].
  intros Hx. destruct (IH _ Hx) as [Hb | (v' & t & Hin & Ht & ->)].
  - destruct (bump_samples_elem st v x Hb) as [? | (t & Ht & ->)]; [auto|].
    right. exists v, t. split; [left | auto].
  - right. exists v', t. split; [right; exact Hin | auto].
Qed.

Lemma filled_text_strip (v : value) (t : str) :
  filled_text v = Some t -> ∃ s, v = VStr s ∧ t = strip s.
Proof.
  destruct v as [|s|l]; simpl; try discriminate.
  destruct s as [|c s]; [discriminate|].
  destruct (strip (c :: s)) eqn:E; [discriminate|].
  intros [= <-]. eauto.
Qed.

End accumulation.

(** ** The shape of the runs *)

Section runs.

Lemma analyze_voter_file_eq (f : file) :
  analyze_voter_file f
  = match fieldnames (Csv.reader (readlines (content f))) with
    | Raise e => (preamble f, Raise e)
    | Ok None => (preamble f, Raise TypeError)
    | Ok (Some names) =>
        match sample_loop (data_rows f)
                (rows (Csv.reader (readlines (content f)))).2 1 0 ∅ with
        | Raise e => (preamble f ++ listing names, Raise e)
        | Ok r => (preamble f ++ listing names ++ report r.1 r.2, Ok r)
        end
    end.
Proof.
  unfold analyze_voter_file, data_rows.
  destruct (fieldnames _) as [[names|]|e]; try reflexivity.
  destruct (sample_loop _ _ _ _ _) as [r|e]; [|reflexivity].
  unfold preamble, listing, report. cbn -[of_string str_of_int format_fixed rule imap key_fields report_field].
  rewrite <- !app_assoc. reflexivity.
Qed.

End runs.

(** ** Properties of the three passes *)

Lemma data_rows_make_row (f : file) (row : dict) :
  row ∈ data_rows f ->
  ∃ record, record ≠ [] ∧ row = make_row (header_fields f) record.
Proof.
  unfold data_rows, header_fields, rows, fieldnames.
  destruct (Csv.reader (readlines (content f))) as [[|header rs] e]; simpl.
  - intros H. inversion H.
  - intros H. apply list_elem_of_fmap in H as (record & -> & Hin).
    apply list_elem_of_filter in Hin as [Hnb _].
    exists record. split; [|reflexivity].
    intros ->. simpl in Hnb. apply Hnb.
Qed.

Lemma data_rows_NoDup (f : file) (n : nat) :
  Forall (fun row => NoDup row.*1) (take n (data_rows f)).
Proof.
  apply Forall_forall. intros row Hin.
  apply subseteq_take in Hin.
  destruct (data_rows_make_row f row Hin) as (record & _ & ->).
  apply make_row_NoDup.
Qed.

Lemma data_rows_header (f : file) (n : nat) (name : str) :
  name ∈ header_fields f ->
  Forall (fun row => is_Some (dict_get row (Some name))) (take n (data_rows f)).
Proof.
  intros Hname. apply Forall_forall. intros row Hin.
  apply subseteq_take in Hin.
  destruct (data_rows_make_row f row Hin) as (record & _ & ->).
  apply make_row_header, Hname.
Qed.

Lemma rows_end (content : str) :
  (rows (Csv.reader (readlines content))).2
  = (Csv.reader (readlines content)).2.
Proof.
  unfold rows.
  destruct (Csv.reader (readlines content)) as [[|header rs] e]; reflexivity.
Qed.

(** The iteration of the rows ends as the reader does: at the end of the
    file, or with [csv.Error]. *)
Lemma rows_end_cases (content : str) :
  (rows (Csv.reader (readlines content))).2 = None
  ∨ (rows (Csv.reader (readlines content))).2 = Some CsvError.
Proof.
  rewrite rows_end.
  destruct (Csv.reader (readlines content)).2 as [e|] eqn:E; [|auto].
  right. f_equal. exact (records_from_exn _ _ _ E).
Qed.

Lemma rows_to_end (f : file) :
  reads_to_end f -> (rows (Csv.reader (readlines (content f)))).2 = None.
Proof. intros Hf. rewrite rows_end. exact Hf. Qed.

(** A file that is not empty and is read as far as the sample goes has
    a header. *)
Lemma sample_read_fieldnames (f : file) :
  content f ≠ [] -> sample_read f ->
  ∃ names, fieldnames (Csv.reader (readlines (content f))) = Ok (Some names).
Proof.
  intros Hne Hread.
  destruct (fieldnames_nonempty (content f) Hne) as [Hn | Hn]; [exact Hn|].
  exfalso. unfold sample_read, reads_to_end, data_rows in Hread.
  rewrite Hn in Hread. simpl in Hread. destruct Hread; [lia | discriminate].
Qed.

Lemma sample_read_end (f : file) :
  sample_read f ->
  (Z.to_nat (101 - 1) <= length (data_rows f))%nat
  ∨ (rows (Csv.reader (readlines (content f)))).2 = None.
Proof.
  intros [Hlen | Hend]; [left; exact Hlen | right; apply rows_to_end, Hend].
Qed.

(** A run of [analyze_voter_file] that returns has left the loop
    normally, after the first rows of the file, at most [sample_size]. *)
Lemma analyze_returns (f : file) (out : list printed) (rc : Z)
    (fs : gmap key stat) :
  analyze_voter_file f = (out, Ok (rc, fs)) ->
  let m := Nat.min (length (data_rows f)) 100 in
  record_rows (take m (data_rows f)) ∅ = Ok fs
  ∧ rc = Z.of_nat m
  ∧ out = preamble f ++ listing (header_fields f) ++ report rc fs.
Proof.
  rewrite analyze_voter_file_eq. unfold header_fields.
  destruct (fieldnames _) as [[names|]|e]; try discriminate.
  destruct (sample_loop _ _ _ _ _) as [r|e] eqn:Hloop; [|discriminate].
  intros [= <- ->].
  apply sample_loop_spec in Hloop as [Hrec Hrc]; [|lia].
  change (Z.to_nat (101 - 1)) with 100%nat in *. simpl.
  split; [exact Hrec|]. split; [|reflexivity].
  rewrite Hrc. destruct (Nat.eqb_spec (Nat.min (length (data_rows f)) 100) 0); lia.
Qed.

(** A run that returns was handed the rows of the sample. *)
Lemma analyze_sample_read (f : file) (out : list printed)
    (r : Z * gmap key stat) :
  analyze_voter_file f = (out, Ok r) -> sample_read f.
Proof.
  rewrite analyze_voter_file_eq.
  destruct (fieldnames _) as [[names|]|e]; try discriminate.
  destruct (sample_loop _ _ _ _ _) as [r'|e] eqn:Hloop; [|discriminate].
  intros _. apply sample_loop_end in Hloop as [Hlen | Hend]; [| |lia].
  - left. exact Hlen.
  - right. unfold reads_to_end. rewrite <- rows_end. exact Hend.
Qed.

(** [analyze_voter_file] returns on every file that is not empty, whose
    first 100 rows the reader hands over and have no values beyond the
    header. *)
Lemma analyze_voter_file_returns (f : file) :
  content f ≠ [] -> sample_read f ->
  Forall (Forall named_cell) (take 100 (data_rows f)) ->
  ∃ out r, analyze_voter_file f = (out, Ok r).
Proof.
  intros Hne Hread Hrows. rewrite analyze_voter_file_eq.
  destruct (sample_read_fieldnames f Hne Hread) as [names ->].
  destruct (sample_loop_total (data_rows f) _ 1 0 ∅ ltac:(lia) Hrows
              (sample_read_end f Hread)) as [r ->].
  eauto.
Qed.

(** C1. When [analyze_voter_file] has finished its sampling pass, the
    number of rows analysed is the smaller of 100 and the number of data
    rows of the file, and every field named in the header has, filled and
    empty counts together, exactly that many. *)
Theorem filled_plus_empty_is_rows_analyzed (f : file) (out : list printed)
    (row_count : Z) (field_stats : gmap key stat) :
  analyze_voter_file f = (out, Ok (row_count, field_stats)) ->
  row_count = Z.min 100 (Z.of_nat (length (data_rows f)))
  ∧ ∀ field, field ∈ header_fields f ->
      filled (getitem field_stats (Some field))
      + empty (getitem field_stats (Some field)) = row_count.
Proof.
  intros Hrun. apply analyze_returns in Hrun as (Hrec & -> & _).
  split; [lia|]. intros field Hfield.
  rewrite (record_rows_getitem _ _ _ (Some field) (data_rows_NoDup f _) Hrec).
  rewrite bumps_total, cells_length by (apply data_rows_header, Hfield).
  rewrite length_take. unfold getitem. rewrite lookup_empty. simpl. lia.
Qed.

Lemma filled_plus_empty_is_rows_analyzed_witness :
  ∃ out row_count field_stats,
    analyze_voter_file scenario = (out, Ok (row_count, field_stats))
    ∧ row_count = Z.min 100 (Z.of_nat (length (data_rows scenario)))
    ∧ ∀ field, field ∈ header_fields scenario ->
        filled (getitem field_stats (Some field))
        + empty (getitem field_stats (Some field)) = row_count.
Proof.
  eexists _, _, _. split; [vm_compute; reflexivity|].
  eapply (filled_plus_empty_is_rows_analyzed scenario).
  vm_compute. reflexivity.
Defined.

(** C2. On the file with header [A B C] and the rows [1,,3], [4,5,] and
    [7,8,9]: the sampling pass ends with 3 rows analysed and A filled 3,
    empty 0; B filled 2, empty 1, samples 5 and 8; C filled 2, empty 1,
    samples 3 and 9.  The dump of record 2 prints the lines of A (value
    4) and B (value 5) and none for C.  The row count is 3. *)
Theorem scenario_results :
  (analyze_voter_file scenario).2
  = Ok (3, {[ Some (of_string "A") :=
                {| filled := 3; empty := 0;
                   samples := {[ of_string "1"; of_string "4"; of_string "7" ]} |};
              Some (of_string "B") :=
                {| filled := 2; empty := 1;
                   samples := {[ of_string "5"; of_string "8" ]} |};
              Some (of_string "C") :=
                {| filled := 2; empty := 1;
                   samples := {[ of_string "3"; of_string "9" ]} |} ]})
  ∧ print_sample_record scenario 2
    = (banner (of_string "SAMPLE RECORD #2")
       ++ [ Line (of_string "A                             : 4");
            Line (of_string "B                             : 5") ],
       Ok tt)
  ∧ count_total_rows scenario
    = (banner (of_string "COUNTING TOTAL ROWS (this may take a minute)...")
       ++ [ Line (of_string "Total voter records: 3") ],
       Ok 3).
Proof.
  split; [|split]; vm_compute; reflexivity.
Qed.

Lemma getitem_empty (k : key) : getitem ∅ k = new_stat.
Proof. unfold getitem. rewrite lookup_empty. reflexivity. Qed.

Lemma take_min_length {A} (l : list A) (n : nat) :
  take (Nat.min (length l) n) l = take n l.
Proof.
  destruct (Nat.le_ge_cases (length l) n).
  - rewrite Nat.min_l, !take_ge by lia. reflexivity.
  - rewrite Nat.min_r by lia. reflexivity.
Qed.

Lemma slice_to_length (n : nat) (s : str) : (length (slice_to n s) <= n)%nat.
Proof. unfold slice_to. rewrite length_take. lia. Qed.

(** C3. When [analyze_voter_file] has finished, the sample set of every
    field holds at most 3 entries, every entry is at most 50 characters
    long, and every entry is the value of that field in one of the
    sampled rows, trimmed and then cut at 50 characters. *)
Theorem samples_capped_and_trimmed (f : file) (out : list printed)
    (row_count : Z) (field_stats : gmap key stat) (field : key) (st : stat) :
  analyze_voter_file f = (out, Ok (row_count, field_stats)) ->
  field_stats !! field = Some st ->
  (size (samples st) <= 3)%nat
  ∧ ∀ x, x ∈ samples st ->
      (length x <= 50)%nat
      ∧ ∃ row s, row ∈ take 100 (data_rows f)
                 ∧ (field, VStr s) ∈ row
                 ∧ x = slice_to 50 (strip s).
Proof.
  intros Hrun Hst. apply analyze_returns in Hrun as (Hrec & _ & _).
  rewrite take_min_length in Hrec.
  pose proof (record_rows_getitem _ _ _ field (data_rows_NoDup f _) Hrec) as Hget.
  unfold getitem at 1 in Hget. rewrite Hst in Hget. simpl in Hget. subst st.
  split.
  - apply bumps_samples_size. rewrite getitem_empty.
    change (samples new_stat) with (∅ : gset str). rewrite size_empty. lia.
  - intros x Hx. apply bumps_samples_elem in Hx as [Hx | (v & t & Hv & Ht & ->)].
    + rewrite getitem_empty in Hx. apply not_elem_of_empty in Hx. destruct Hx.
    + split; [apply slice_to_length|].
      apply elem_of_cells in Hv as (row & Hrow & Hv).
      apply filled_text_strip in Ht as (s & -> & ->).
      exists row, s. split; [exact Hrow|]. split; [|reflexivity].
      apply dict_get_elem_of, Hv.
Qed.

Lemma samples_capped_and_trimmed_witness :
  let st := {| filled := 2; empty := 1;
               samples := {[ of_string "5"; of_string "8" ]} |} in
  (size (samples st) <= 3)%nat
  ∧ ∀ x, x ∈ samples st ->
      (length x <= 50)%nat
      ∧ ∃ row s, row ∈ take 100 (data_rows scenario)
                 ∧ (Some (of_string "B"), VStr s) ∈ row
                 ∧ x = slice_to 50 (strip s).
Proof.
  intros st.
  refine (samples_capped_and_trimmed scenario
            (analyze_voter_file scenario).1 3
            (match (analyze_voter_file scenario).2 with
             | Ok r => r.2 | Raise _ => ∅ end)
            (Some (of_string "B")) st _ _);
    vm_compute; reflexivity.
Defined.

(** C10. A row with fewer values than the header has fields is recorded
    without an exception; each field the row does not reach has its empty
    count raised by one (its filled count and its samples stay), and every
    field of the header has filled and empty counts raised by exactly one
    in total. *)
Theorem short_row_missing_fields_count_empty (header record : list str)
    (field_stats : gmap key stat) :
  (length record < length header)%nat ->
  ∃ fs', record_row (make_row header record) field_stats = Ok fs'
    ∧ (∀ name, name ∈ drop (length record) header ->
         filled (getitem fs' (Some name)) = filled (getitem field_stats (Some name))
         ∧ empty (getitem fs' (Some name)) = empty (getitem field_stats (Some name)) + 1
         ∧ samples (getitem fs' (Some name)) = samples (getitem field_stats (Some name)))
    ∧ (∀ name, name ∈ header ->
         filled (getitem fs' (Some name)) + empty (getitem fs' (Some name))
         = filled (getitem field_stats (Some name))
           + empty (getitem field_stats (Some name)) + 1).
Proof.
  intros Hlt.
  destruct (record_row_named (make_row header record) field_stats) as [fs' Hrow].
  { apply make_row_named. lia. }
  exists fs'. split; [exact Hrow|].
  pose proof (make_row_NoDup header record) as Hnd. split.
  - intros name Hname.
    rewrite (record_row_getitem _ _ _ (Some name) Hnd Hrow).
    rewrite (make_row_missing header record name Hname). auto.
  - intros name Hname.
    rewrite (record_row_getitem _ _ _ (Some name) Hnd Hrow).
    destruct (make_row_header header record name Hname) as [v ->].
    apply (bumps_total [v]).
Qed.

Lemma short_row_missing_fields_count_empty_witness :
  let header := map of_string ["A"; "B"; "C"]%string in
  let record := map of_string ["1"]%string in
  ∃ fs', record_row (make_row header record) ∅ = Ok fs'
    ∧ (∀ name, name ∈ drop (length record) header ->
         filled (getitem fs' (Some name)) = filled (getitem ∅ (Some name))
         ∧ empty (getitem fs' (Some name)) = empty (getitem ∅ (Some name)) + 1
         ∧ samples (getitem fs' (Some name)) = samples (getitem ∅ (Some name)))
    ∧ (∀ name, name ∈ header ->
         filled (getitem fs' (Some name)) + empty (getitem fs' (Some name))
         = filled (getitem ∅ (Some name)) + empty (getitem ∅ (Some name)) + 1).
Proof.
  intros header record.
  apply (short_row_missing_fields_count_empty header record ∅).
  vm_compute. lia.
Defined.

(** *** The record dump *)

Lemma print_sample_record_eq (f : file) (n : Z) :
  print_sample_record f n
  = let r := find_record (data_rows f)
               (rows (Csv.reader (readlines (content f)))).2 1 n in
    (banner (of_string "SAMPLE RECORD #" ++ str_of_int n) ++ r.1, r.2).
Proof.
  unfold print_sample_record, data_rows.
  destruct (find_record _ _ _ _) as [out r]. reflexivity.
Qed.

Lemma find_record_miss (rows : list dict) (i n : Z) :
  i + Z.of_nat (length rows) <= n ->
  find_record rows None i n = ([], Ok tt).
Proof.
  revert i. induction rows as [|row rest IH]; intros i Hi; simpl; [reflexivity|].
  simpl in Hi. destruct (Z.eqb_spec i n); [lia|]. apply IH. lia.
Qed.

Lemma find_record_hit (rows : list dict) (ending : option exn) (i n : Z)
    (row : dict) :
  i <= n -> rows !! Z.to_nat (n - i) = Some row ->
  find_record rows ending i n = print_fields row.
Proof.
  revert i. induction rows as [|r rest IH]; intros i Hi Hrow; [discriminate|].
  simpl. destruct (Z.eqb_spec i n) as [->|Hne].
  - rewrite Z.sub_diag in Hrow. simpl in Hrow. congruence.
  - apply IH; [lia|].
    replace (Z.to_nat (n - i)) with (S (Z.to_nat (n - (i + 1)))) in Hrow by lia.
    exact Hrow.
Qed.

Lemma long_value_chars :
  Forall (fun c => c ≠ TAB ∧ c ≠ LF ∧ c ≠ CR) long_value.
Proof. apply Forall_replicate. repeat split; discriminate. Qed.

Lemma long_value_head : head long_value ≠ Some QUOTE.
Proof.
  unfold long_value.
  destruct (Z.to_nat (Csv.field_limit + 1)); simpl; discriminate.
Qed.

Lemma long_value_length : Csv.field_limit < Z.of_nat (length long_value).
Proof. unfold long_value. rewrite length_replicate. unfold Csv.field_limit. lia. Qed.

(** The reader yields the header of [long_value_file] and raises at its
    data row. *)
Lemma long_value_file_reader :
  Csv.reader (readlines (content long_value_file))
  = ([[of_string "A"]], Some CsvError).
Proof.
  apply (reader_long_value [of_string "A"] long_value []).
  - repeat constructor; discriminate.
  - discriminate.
  - exact long_value_chars.
  - exact long_value_head.
  - exact long_value_length.
Qed.

(** C6. On a file that the csv reader reads to its end (no field of it
    is longer than [Csv.field_limit]), for a record number greater than
    the number of data rows, [print_sample_record] prints its three
    heading lines and no field, and returns without an exception. *)
Theorem record_number_out_of_range (f : file) (record_num : Z) :
  reads_to_end f ->
  Z.of_nat (length (data_rows f)) < record_num ->
  print_sample_record f record_num
  = (banner (of_string "SAMPLE RECORD #" ++ str_of_int record_num), Ok tt).
Proof.
  intros Hend Hn. rewrite print_sample_record_eq, (rows_to_end f Hend).
  rewrite find_record_miss by lia. reflexivity.
Qed.

Lemma record_number_out_of_range_witness :
  print_sample_record scenario 10
  = (banner (of_string "SAMPLE RECORD #" ++ str_of_int 10), Ok tt).
Proof.
  apply (record_number_out_of_range scenario 10); vm_compute; reflexivity.
Defined.

(** C6 does not hold of every file: [long_value_file] has one data row,
    of 131073 characters, and the dump of record 2 ends with [csv.Error]
    after the heading. *)
Lemma record_number_out_of_range_long_value :
  Z.of_nat (length (data_rows long_value_file)) < 2
  ∧ print_sample_record long_value_file 2
    = (banner (of_string "SAMPLE RECORD #" ++ str_of_int 2), Raise CsvError).
Proof.
  rewrite print_sample_record_eq. unfold data_rows.
  rewrite long_value_file_reader. split; reflexivity.
Qed.

Lemma print_fields_named (items : dict) :
  Forall named_cell items ->
  print_fields items
  = (map (fun nv => field_line nv.1 nv.2) (nonempty_fields items), Ok tt).
Proof.
  induction 1 as [|[k v] items [[name Hk] Hv] _ IH]; [reflexivity|].
  simpl in Hk, Hv. subst k. cbn [print_fields]. rewrite IH.
  unfold nonempty_fields. cbn [omap list_omap].
  destruct Hv as [-> | [s ->]]; [reflexivity|]. cbn [print_field].
  destruct s as [|c s]; [reflexivity|].
  destruct (strip (c :: s)); [reflexivity|].
  unfold field_line, ljust, repeat_char. simpl. rewrite <- !app_assoc. reflexivity.
Qed.

Lemma print_fields_surplus (items : dict) (x : str) (l : list str) :
  Forall named_cell items ->
  print_fields (items ++ [(None, VList (x :: l))])
  = (map (fun nv => field_line nv.1 nv.2)
         (nonempty_fields (items ++ [(None, VList (x :: l))])),
     Raise AttributeError).
Proof.
  intros Hall. unfold nonempty_fields. rewrite omap_app. simpl omap at 2.
  rewrite app_nil_r. fold (nonempty_fields items).
  pose proof (print_fields_named items Hall) as Hp. revert Hp.
  generalize (map (fun nv => field_line nv.1 nv.2) (nonempty_fields items)).
  clear Hall. induction items as [|[k v] items IH]; intros out Hp.
  - simpl in *. injection Hp as <-. reflexivity.
  - cbn [print_fields app] in *.
    destruct (print_field k v) as [o1 [[]|e]]; [|discriminate].
    destruct (print_fields items) as [o2 [[]|e]] eqn:E; [|discriminate].
    rewrite (IH o2 eq_refl). simpl in *. congruence.
Qed.

(** C7 (as the code has it). When the target record exists,
    [print_sample_record] prints, after its heading, one line for every
    field of that record whose value is neither empty nor blank: the field
    name, padded on the right with spaces up to 30 characters (a longer
    name is printed whole), then a colon, a space and the value.  It
    returns normally when the record has no values beyond the header. *)
Theorem sample_record_lines (f : file) (record_num : Z) (row : dict) :
  1 <= record_num ->
  data_rows f !! Z.to_nat (record_num - 1) = Some row ->
  (print_sample_record f record_num).1
  = banner (of_string "SAMPLE RECORD #" ++ str_of_int record_num)
    ++ map (fun nv => field_line nv.1 nv.2) (nonempty_fields row)
  ∧ (dict_get row None = None -> (print_sample_record f record_num).2 = Ok tt).
Proof.
  intros Hn Hrow. rewrite print_sample_record_eq.
  rewrite (find_record_hit _ _ 1 record_num row Hn Hrow). cbn [fst snd].
  destruct (data_rows_make_row f row) as (record & Hne & ->).
  { apply list_elem_of_lookup. eauto. }
  destruct (Nat.le_gt_cases (length record) (length (header_fields f))) as [Hle|Hgt].
  - rewrite print_fields_named by (apply make_row_named, Hle). auto.
  - rewrite make_row_surplus by exact Hgt.
    destruct (drop (length (header_fields f)) record) as [|x l] eqn:E.
    { apply (f_equal length) in E. rewrite length_drop in E. simpl in E. lia. }
    rewrite print_fields_surplus by apply zipped_named.
    split; [reflexivity|]. intros Hnone.
    apply dict_get_None in Hnone. exfalso. apply Hnone.
    rewrite fmap_app. apply elem_of_app. right. left.
Qed.

Lemma sample_record_lines_witness :
  (print_sample_record scenario 2).1
  = banner (of_string "SAMPLE RECORD #" ++ str_of_int 2)
    ++ [ field_line (of_string "A") (of_string "4");
         field_line (of_string "B") (of_string "5") ].
Proof.
  refine (proj1 (sample_record_lines scenario 2
                   (make_row (map of_string ["A"; "B"; "C"]%string)
                             (map of_string ["4"; "5"; ""]%string)) _ _)).
  - vm_compute. discriminate.
  - vm_compute. reflexivity.
Defined.

(** C7 (as stated) fails: the name column of a printed line is not always
    30 characters wide.  A field name of 34 characters is printed whole. *)
Lemma name_column_not_fixed_width :
  ¬ (∀ (f : file) (record_num : Z) (l : printed),
       l ∈ drop 3 (print_sample_record f record_num).1 ->
       ∃ col value, length col = 30%nat
                    ∧ l = Line (col ++ of_string ": " ++ value)).
Proof.
  intros H.
  destruct (H wide_header 1
              (Line (of_string "ResidenceAddressStreetNumberSuffix: 7")))
    as (col & value & Hlen & Heq).
  { vm_compute. left. }
  injection Heq as Heq.
  apply (f_equal (drop 30)) in Heq.
  rewrite drop_app_length' in Heq by (symmetry; exact Hlen).
  vm_compute in Heq. discriminate.
Qed.

(** *** Line ends *)

Lemma translate_newlines_crlf (l rest : str) :
  Forall (fun c => c ≠ CR) l ->
  translate_newlines (l ++ CR :: LF :: rest) = l ++ LF :: translate_newlines rest.
Proof.
  induction 1 as [|c l Hc _ IH]; simpl.
  - reflexivity.
  - apply N.eqb_neq in Hc. rewrite Hc, IH. reflexivity.
Qed.

Lemma readlines_line_end (l e rest : str) :
  plain l -> line_end e ->
  readlines (l ++ e ++ rest) = (l ++ [LF]) :: readlines rest.
Proof.
  intros Hl [-> | ->].
  - apply readlines_line, Hl.
  - unfold readlines. simpl app.
    rewrite translate_newlines_crlf by (eapply Forall_impl; [exact Hl | simpl; tauto]).
    rewrite lines_from_line by (eapply Forall_impl; [exact Hl | simpl; tauto]).
    reflexivity.
Qed.

Lemma readlines_lines_end (ls : list str) (e tail : str) :
  Forall plain ls -> line_end e ->
  readlines (concat (map (fun l => l ++ e) ls) ++ tail)
  = map (fun l => l ++ [LF]) ls ++ readlines tail.
Proof.
  intros Hls He. induction Hls as [|l ls Hl _ IH]; simpl; [reflexivity|].
  rewrite <- !app_assoc, readlines_line_end, IH by assumption. reflexivity.
Qed.

(** *** The row count *)

(** C5. On a file made of one header line and D data lines (each line
    ended by LF or by CR LF; the last one may lack its line end),
    [count_total_rows] leaves the header out: it reports and returns D. *)
Theorem count_total_rows_is_data_lines (f : file) (header : str)
    (data : list str) (e : str) :
  plain header -> Forall plain data -> line_end e ->
  content f = concat (map (fun l => l ++ e) (header :: data))
  ∨ (∃ init last, data = init ++ [last] ∧ last ≠ []
       ∧ content f = concat (map (fun l => l ++ e) (header :: init)) ++ last) ->
  count_total_rows f
  = (banner (of_string "COUNTING TOTAL ROWS (this may take a minute)...")
     ++ [ Line (of_string "Total voter records: "
                ++ format_thousands (Z.of_nat (length data))) ],
     Ok (Z.of_nat (length data))).
Proof.
  intros Hh Hd He Hc.
  assert (∃ rest, readlines (content f) = (header ++ [LF]) :: rest
                  ∧ length rest = length data) as (rest & Hlines & Hlen).
  { destruct Hc as [-> | (init & last & -> & Hlast & ->)].
    - rewrite <- (app_nil_r (concat _)), readlines_lines_end
        by first [exact He | constructor; assumption].
      simpl. eexists. split; [reflexivity|].
      rewrite app_nil_r, length_map. reflexivity.
    - apply Forall_app in Hd as [Hinit Hl]. apply Forall_cons in Hl as [Hl _].
      rewrite readlines_lines_end by first [exact He | constructor; assumption].
      rewrite readlines_last by assumption.
      simpl. eexists. split; [reflexivity|].
      rewrite !length_app, length_map. reflexivity. }
  unfold count_total_rows. rewrite Hlines. cbv beta iota zeta.
  unfold str in *. rewrite Hlen. reflexivity.
Qed.

Lemma count_total_rows_is_data_lines_witness :
  count_total_rows scenario
  = (banner (of_string "COUNTING TOTAL ROWS (this may take a minute)...")
     ++ [ Line (of_string "Total voter records: " ++ format_thousands 3) ],
     Ok 3).
Proof.
  apply (count_total_rows_is_data_lines scenario
           (join [TAB] (map of_string ["A"; "B"; "C"]%string))
           (map (fun r => join [TAB] (map of_string r))
                [["1"; ""; "3"]; ["4"; "5"; ""]; ["7"; "8"; "9"]]%string)
           [LF]).
  - apply Forall_forall. intros c Hc. vm_compute in Hc.
    repeat (apply elem_of_cons in Hc as [-> | Hc]; [split; discriminate|]).
    inversion Hc.
  - repeat constructor; discriminate.
  - left. reflexivity.
  - left. reflexivity.
Defined.

(** *** The header *)

Lemma fieldnames_header_end (f : file) (names : list str) (e rest : str) :
  Forall plain_name names -> join [TAB] names ≠ [] -> line_end e ->
  content f = join [TAB] names ++ e ++ rest ∨ content f = join [TAB] names ->
  fieldnames (Csv.reader (readlines (content f))) = Ok (Some names).
Proof.
  intros Hall Hne He [Hc | Hc].
  - assert (plain (join [TAB] names)) as Hp.
    { apply Forall_forall. intros c Hin. exact (join_chars names c Hall Hin). }
    rewrite Hc, readlines_line_end by assumption.
    unfold Csv.reader. simpl Csv.records_from.
    rewrite (feed_header names [LF]) by auto. simpl.
    destruct (Csv.records_from Csv.parse_reset (readlines rest)). reflexivity.
  - apply (fieldnames_header f names []); auto.
Qed.

(** On a file of plain tab-delimited lines the records of the reader are
    the lines, so the data rows are the data lines. *)
Lemma reader_of_lines (records : list (list str)) :
  Forall (fun r => Forall plain_name r ∧ join [TAB] r ≠ []) records ->
  Csv.reader (map (fun l => l ++ [LF]) (map (join [TAB]) records))
  = (records, None).
Proof.
  unfold Csv.reader.
  induction 1 as [|r records [Hr Hne] _ IH]; [reflexivity|].
  cbn [map Csv.records_from].
  rewrite (feed_header r [LF]) by auto. cbn [Csv.state Csv.fields].
  rewrite IH. reflexivity.
Qed.

Lemma data_rows_of_lines (f : file) (names : list str)
    (data : list (list str)) (e : str) :
  Forall (fun r => Forall plain_name r ∧ join [TAB] r ≠ []) (names :: data) ->
  line_end e ->
  content f = concat (map (fun l => l ++ e) (map (join [TAB]) (names :: data))) ->
  header_fields f = names ∧ data_rows f = map (make_row names) data.
Proof.
  intros Hall He Hc.
  assert (readlines (content f)
          = map (fun l => l ++ [LF]) (map (join [TAB]) (names :: data))) as Hlines.
  { rewrite Hc, <- (app_nil_r (concat _)).
    rewrite readlines_lines_end; [apply app_nil_r | | exact He].
    apply Forall_forall. intros l Hl.
    apply list_elem_of_fmap in Hl as (r & -> & Hr).
    rewrite Forall_forall in Hall. destruct (Hall r Hr) as [Hplain _].
    apply Forall_forall. intros c Hin. exact (join_chars r c Hplain Hin). }
  unfold header_fields, data_rows.
  rewrite Hlines, (reader_of_lines (names :: data) Hall). simpl.
  split; [reflexivity|]. f_equal.
  apply Forall_cons in Hall as [_ Hdata]. clear Hc Hlines.
  induction Hdata as [|r data [_ Hne] _ IH]; [reflexivity|].
  destruct r as [|x r]; [contradiction Hne; reflexivity|].
  rewrite filter_cons_True by exact I. rewrite IH. reflexivity.
Qed.

(** C8. On a tab-delimited file whose header line spells N column names
    (separated by TAB, the line ended by LF or CR LF, or by the end of the
    file), the fourth line [analyze_voter_file] prints is
    "Total Fields: N". *)
Theorem total_fields_is_header_width (f : file) (names : list str)
    (e rest : str) :
  Forall plain_name names -> join [TAB] names ≠ [] -> line_end e ->
  content f = join [TAB] names ++ e ++ rest ∨ content f = join [TAB] names ->
  (analyze_voter_file f).1 !! 3%nat
  = Some (Line (LF :: of_string "Total Fields: "
                ++ str_of_int (Z.of_nat (length names)))).
Proof.
  intros Hall Hne He Hc.
  rewrite analyze_voter_file_eq.
  rewrite (fieldnames_header_end f names e rest Hall Hne He Hc).
  destruct (sample_loop _ _ _ _ _); reflexivity.
Qed.

Lemma total_fields_is_header_width_witness :
  (analyze_voter_file scenario).1 !! 3%nat
  = Some (Line (LF :: of_string "Total Fields: " ++ str_of_int 3)).
Proof.
  apply (total_fields_is_header_width scenario
           (map of_string ["A"; "B"; "C"]%string) [LF]
           (tsv [["1"; ""; "3"]; ["4"; "5"; ""]; ["7"; "8"; "9"]]%string)).
  - repeat constructor; discriminate.
  - discriminate.
  - left. reflexivity.
  - left. reflexivity.
Defined.

(** C9. On a file without any line, [analyze_voter_file] prints its
    first three lines and raises [TypeError] where it takes the length of
    the field names: no field count is reported. *)
Theorem no_header_raises (path : str) (size : Z) :
  let f := {| file_path := path; st_size := size; content := [] |} in
  analyze_voter_file f = (preamble f, Raise TypeError).
Proof. intros f. rewrite analyze_voter_file_eq. reflexivity. Qed.

(** *** The fill percentage *)

Lemma pct_rounded_all :
  forallb (fun r => forallb (pct_rounded r) (seq 0 (S r))) (seq 1 100) = true.
Proof. vm_compute. reflexivity. Qed.

Lemma pct_rounded_spec (filled row_count : Z) :
  1 <= row_count <= 100 -> 0 <= filled <= row_count ->
  format_fixed 1 (filled_pct filled row_count)
  = render_fixed 1 false (pct_tenths filled row_count)
  ∧ 2 * Z.abs (1000 * filled - pct_tenths filled row_count * row_count)
    <= row_count.
Proof.
  intros Hr Hf.
  assert (In (Z.to_nat row_count) (seq 1 100)) as Hin1 by (apply in_seq; lia).
  assert (In (Z.to_nat filled) (seq 0 (S (Z.to_nat row_count)))) as Hin2
    by (apply in_seq; lia).
  pose proof (proj1 (forallb_forall _ _) pct_rounded_all _ Hin1) as Hrow.
  pose proof (proj1 (forallb_forall _ _) Hrow _ Hin2) as Hall.
  unfold pct_rounded in Hall. rewrite !Z2Nat.id in Hall by lia.
  apply andb_prop in Hall as [H1 H2].
  apply bool_decide_eq_true in H1. apply Z.leb_le in H2. auto.
Qed.

(** An entry of the statistics exists only when a row was analysed, and
    its counts stay within the number of rows analysed. *)
Lemma analyze_entry_bounds (f : file) (out : list printed) (rc : Z)
    (fs : gmap key stat) (k : key) (st : stat) :
  analyze_voter_file f = (out, Ok (rc, fs)) -> fs !! k = Some st ->
  1 <= rc <= 100 ∧ 0 <= filled st ∧ 0 <= empty st
  ∧ filled st + empty st <= rc.
Proof.
  intros Hrun Hst. apply analyze_returns in Hrun as (Hrec & -> & _).
  pose proof (record_rows_lookup _ _ _ k (data_rows_NoDup f _) Hrec) as Hk.
  rewrite Hst, lookup_empty, getitem_empty in Hk.
  set (rows := take (Nat.min (length (data_rows f)) 100) (data_rows f)) in *.
  pose proof (cells_length_le k rows) as Hle.
  assert (length rows = Nat.min (length (data_rows f)) 100) as Hlen.
  { unfold rows. rewrite length_take. lia. }
  destruct (cells k rows) as [|v vs] eqn:E; [discriminate|].
  injection Hk as ->.
  pose proof (bumps_total (v :: vs) new_stat) as Ht.
  pose proof (bumps_mono (v :: vs) new_stat) as [Hf He].
  simpl length in *. simpl filled in *. simpl empty in *. lia.
Qed.

Lemma report_field_line (fs : gmap key stat) (rc : Z) (field : str) (st : stat) :
  field ∈ key_fields -> fs !! Some field = Some st ->
  Line (of_string "  Filled: " ++ str_of_int (filled st)
        ++ of_string "/" ++ str_of_int rc
        ++ of_string " (" ++ format_fixed 1 (filled_pct (filled st) rc)
        ++ of_string "%)") ∈ report rc fs.
Proof.
  intros Hkey Hst. unfold report.
  apply elem_of_app. right. apply elem_of_app. left.
  apply list_elem_of_In, in_concat.
  exists (report_field fs rc field). split.
  - apply in_map, list_elem_of_In, Hkey.
  - unfold report_field. rewrite Hst. right. left. reflexivity.
Qed.

(** C4. For a key field that has an entry in the statistics, the line
    [analyze_voter_file] prints shows filled / rows analysed * 100 with one
    decimal: the number of tenths shown is within half a tenth of the exact
    quotient.  For zero rows analysed the expression of the percentage
    formats as 0.0. *)
Theorem fill_percentage_one_decimal (f : file) (out : list printed)
    (row_count : Z) (field_stats : gmap key stat) (field : str) (st : stat) :
  analyze_voter_file f = (out, Ok (row_count, field_stats)) ->
  field ∈ key_fields ->
  field_stats !! Some field = Some st ->
  let tenths := pct_tenths (filled st) row_count in
  Line (of_string "  Filled: " ++ str_of_int (filled st)
        ++ of_string "/" ++ str_of_int row_count
        ++ of_string " (" ++ render_fixed 1 false tenths
        ++ of_string "%)") ∈ out
  ∧ 2 * Z.abs (1000 * filled st - tenths * row_count) <= row_count
  ∧ ∀ n, format_fixed 1 (filled_pct n 0) = of_string "0.0".
Proof.
  intros Hrun Hkey Hst tenths.
  destruct (analyze_entry_bounds _ _ _ _ _ _ Hrun Hst) as (Hrc & Hf & He & Hsum).
  destruct (pct_rounded_spec (filled st) row_count Hrc ltac:(lia)) as [Hfmt Hnear].
  split; [|split].
  - apply analyze_returns in Hrun as (_ & _ & ->).
    apply elem_of_app. right. apply elem_of_app. right.
    unfold tenths. rewrite <- Hfmt.
    apply (report_field_line field_stats row_count field st Hkey Hst).
  - exact Hnear.
  - intros n. reflexivity.
Qed.

Lemma fill_percentage_one_decimal_witness :
  Line (of_string "  Filled: 2/3 (66.7%)") ∈ (analyze_voter_file voters).1
  ∧ 2 * Z.abs (1000 * 2 - 667 * 3) <= 3
  ∧ ∀ n, format_fixed 1 (filled_pct n 0) = of_string "0.0".
Proof.
  refine (fill_percentage_one_decimal voters
            (analyze_voter_file voters).1 3
            (match (analyze_voter_file voters).2 with
             | Ok r => r.2 | Raise _ => ∅ end)
            (of_string "Gender")
            {| filled := 2; empty := 1;
               samples := {[ of_string "F"; of_string "M" ]} |} _ _ _).
  - vm_compute. reflexivity.
  - apply list_elem_of_In. vm_compute. tauto.
  - vm_compute. reflexivity.
Defined.

(** ** Further properties of the code *)

(** *** Trimming *)

Section trimming.

Lemma lstrip_nil (s : str) :
  lstrip s = [] ↔ Forall (fun c => isspace c = true) s.
Proof.
  induction s as [|c s IH]; simpl.
  - split; [constructor | reflexivity].
  - destruct (isspace c) eqn:E.
    + rewrite IH. split; [constructor; assumption | intros H; inversion H; assumption].
    + split; [discriminate | intros H; inversion H; congruence].
Qed.

Lemma lstrip_head (s : str) (c : N) (r : str) :
  lstrip s = c :: r -> isspace c = false.
Proof.
  induction s as [|c' s IH]; simpl; [discriminate|].
  destruct (isspace c') eqn:E; [exact IH|]. intros [= -> _]. exact E.
Qed.

(** Trimming on the left drops a prefix. *)
Lemma lstrip_suffix (s : str) : ∃ u, s = u ++ lstrip s.
Proof.
  induction s as [|c s [u IH]]; simpl; [exists []; reflexivity|].
  destruct (isspace c).
  - exists (c :: u). simpl. f_equal. exact IH.
  - exists []. reflexivity.
Qed.

(** Trimming on the right drops a suffix. *)
Lemma rstrip_prefix (s : str) : ∃ u, s = rstrip s ++ u.
Proof.
  unfold rstrip. destruct (lstrip_suffix (rev s)) as [u Hu].
  exists (rev u). rewrite <- rev_app_distr, <- Hu, rev_involutive. reflexivity.
Qed.

Lemma nonblank_false (s : str) :
  nonblank s = false ↔ Forall (fun c => isspace c = true) s.
Proof.
  unfold nonblank. induction s as [|c s IH]; simpl.
  - split; [constructor | reflexivity].
  - rewrite orb_false_iff, IH, negb_false_iff, Forall_cons. reflexivity.
Qed.

(** A text trims to nothing exactly when it is white space only. *)
Lemma strip_nil (s : str) : strip s = [] ↔ nonblank s = false.
Proof.
  rewrite nonblank_false, <- lstrip_nil. unfold strip, rstrip. split.
  - intros H. apply (f_equal (@rev N)) in H. rewrite rev_involutive in H.
    simpl in H. apply lstrip_nil in H.
    destruct (lstrip s) as [|c r] eqn:E; [reflexivity|].
    apply lstrip_head in E.
    apply Forall_rev in H. rewrite rev_involutive in H.
    apply Forall_cons in H as [H _]. congruence.
  - intros ->. reflexivity.
Qed.

(** A trimmed text does not start with white space. *)
Lemma strip_head (s : str) (c : N) (r : str) :
  strip s = c :: r -> isspace c = false.
Proof.
  unfold strip. intros H.
  destruct (rstrip_prefix (lstrip s)) as [u Hu]. rewrite H in Hu.
  apply (lstrip_head s c (r ++ u)). exact Hu.
Qed.

Lemma filled_text_Some (v : value) :
  is_Some (filled_text v) ↔ ∃ s, v = VStr s ∧ nonblank s = true.
Proof.
  destruct v as [|s|l]; simpl.
  - split; [intros [? [=]] | intros (? & [=] & _)].
  - destruct s as [|c' s']; simpl.
    + split; [intros [? [=]] | intros (s0 & [= <-] & H); discriminate].
    + destruct (strip (c' :: s')) as [|c t] eqn:E.
      * split; [intros [? [=]]|]. intros (s0 & [= <-] & H).
        apply strip_nil in E. congruence.
      * split; [|eauto]. intros _. exists (c' :: s'). split; [reflexivity|].
        destruct (nonblank (c' :: s')) eqn:Hn; [reflexivity|].
        apply strip_nil in Hn. congruence.
  - split; [intros [? [=]] | intros (? & [=] & _)].
Qed.

End trimming.

(** *** What the counts and the samples of a field are *)

Section fields.

(** After a run that returns, the entry of a field is what its cells in
    the first 100 rows make of a fresh entry. *)
Lemma analyze_getitem (f : file) (out : list printed) (rc : Z)
    (fs : gmap key stat) (k : key) :
  analyze_voter_file f = (out, Ok (rc, fs)) ->
  getitem fs k = foldl bump new_stat (cells k (take 100 (data_rows f)))
  ∧ rc = Z.of_nat (length (take 100 (data_rows f))).
Proof.
  intros Hrun. apply analyze_returns in Hrun as (Hrec & -> & _).
  rewrite take_min_length in Hrec. split.
  - rewrite (record_rows_getitem _ _ _ k (data_rows_NoDup f _) Hrec).
    rewrite getitem_empty. reflexivity.
  - rewrite length_take. lia.
Qed.

Lemma bump_filled (st : stat) (v : value) :
  filled (bump st v)
  = filled st + (if decide (is_Some (filled_text v)) then 1 else 0).
Proof.
  unfold bump. destruct (filled_text v) as [t|]; cbn [filled].
  - destruct (decide (is_Some (Some t))) as [_|H]; [reflexivity|].
    contradiction H. eauto.
  - destruct (decide (is_Some (@None str))) as [[? [=]]|_]. lia.
Qed.

Lemma cell_filled_spec (k : key) (row : dict) :
  cell_filled k row = true
  ↔ ∃ v, dict_get row k = Some v ∧ is_Some (filled_text v).
Proof.
  unfold cell_filled. destruct (dict_get row k) as [v|].
  - split.
    + destruct v as [|s|l]; try discriminate. intros H.
      exists (VStr s). split; [reflexivity|]. apply filled_text_Some. eauto.
    + intros (v' & [= <-] & Hv). apply filled_text_Some in Hv as (s & -> & H).
      exact H.
  - split; [discriminate | intros (? & [=] & _)].
Qed.

Lemma bumps_filled (k : key) (rows : list dict) (st : stat) :
  filled (foldl bump st (cells k rows))
  = filled st
    + Z.of_nat (length (filter (fun row => cell_filled k row = true) rows)).
Proof.
  revert st. induction rows as [|row rows IH]; intros st; [simpl; lia|].
  unfold cells. cbn [omap list_omap]. fold (cells k rows).
  rewrite filter_cons.
  destruct (dict_get row k) as [v|] eqn:E; cbn [foldl].
  - rewrite IH, bump_filled.
    destruct (decide (is_Some (filled_text v))) as [Hv|Hv].
    + rewrite decide_True by (apply cell_filled_spec; eauto).
      simpl length. lia.
    + rewrite decide_False; [lia|].
      intros H. apply cell_filled_spec in H as (v' & Hv' & H).
      rewrite E in Hv'. injection Hv' as <-. contradiction.
  - rewrite IH, decide_False; [reflexivity|].
    intros H. apply cell_filled_spec in H as (v' & Hv' & _). congruence.
Qed.

(** X1. After a run of [analyze_voter_file] that returns, the filled
    count of a field is the number of rows, among the first 100, in which
    the value of the field has a character that is not white space; for
    a field of the header the empty count is the number of the other
    sampled rows. *)
Theorem filled_counts_nonblank_values (f : file) (out : list printed)
    (row_count : Z) (field_stats : gmap key stat) (field : str) :
  analyze_voter_file f = (out, Ok (row_count, field_stats)) ->
  field ∈ header_fields f ->
  let sampled := take 100 (data_rows f) in
  let n := length (filter (fun row => cell_filled (Some field) row = true)
                          sampled) in
  filled (getitem field_stats (Some field)) = Z.of_nat n
  ∧ empty (getitem field_stats (Some field))
    = Z.of_nat (length sampled - n).
Proof.
  intros Hrun Hfield sampled n. subst sampled n.
  destruct (analyze_getitem f out row_count field_stats (Some field) Hrun)
    as [Hget _].
  pose proof (bumps_filled (Some field) (take 100 (data_rows f)) new_stat) as Hf.
  pose proof (bumps_total (cells (Some field) (take 100 (data_rows f))) new_stat)
    as Ht.
  rewrite <- Hget in Hf, Ht.
  rewrite cells_length in Ht by (apply data_rows_header, Hfield).
  pose proof (length_filter (fun row => cell_filled (Some field) row = true)
                (take 100 (data_rows f))) as Hle.
  simpl in Hf, Ht. lia.
Qed.

Lemma filled_counts_nonblank_values_witness :
  filled {| filled := 2; empty := 1;
            samples := {[ of_string "5"; of_string "8" ]} |} = 2
  ∧ empty {| filled := 2; empty := 1;
             samples := {[ of_string "5"; of_string "8" ]} |} = 1.
Proof.
  refine (filled_counts_nonblank_values scenario
            (analyze_voter_file scenario).1 3
            (match (analyze_voter_file scenario).2 with
             | Ok r => r.2 | Raise _ => ∅ end)
            (of_string "B") _ _).
  - vm_compute. reflexivity.
  - apply list_elem_of_In. vm_compute. tauto.
Defined.

End fields.

Section sample_sets.

Lemma offered_cells (k : key) (rows : list dict) :
  offered k rows = texts (cells k rows).
Proof.
  unfold offered, texts, cells.
  induction rows as [|row rows IH]; [reflexivity|].
  cbn [omap list_omap]. rewrite IH.
  destruct (dict_get row k) as [v|]; reflexivity.
Qed.

Lemma texts_cons (v : value) (vs : list value) :
  texts (v :: vs) = texts [v] ++ texts vs.
Proof.
  unfold texts. cbn [omap list_omap].
  destruct (slice_to 50 <$> filled_text v); reflexivity.
Qed.

(** The set keeps up with the texts offered until it holds three. *)
Lemma bump_samples_first (st : stat) (v : value) (seen : gset str) :
  samples st ⊆ seen ->
  ((size (samples st) < 3)%nat -> samples st = seen) ->
  samples (bump st v) ⊆ seen ∪ list_to_set (texts [v])
  ∧ ((size (samples (bump st v)) < 3)%nat ->
     samples (bump st v) = seen ∪ list_to_set (texts [v])).
Proof.
  intros Hsub Heq. unfold bump, texts. cbn [omap list_omap].
  destruct (filled_text v) as [t|]; cbn [fmap option_fmap option_map samples list_to_set].
  - rewrite (right_id_L ∅ (∪)).
    destruct (Nat.ltb_spec (size (samples st)) 3) as [Hlt|Hge].
    + rewrite (Heq Hlt). split; [reflexivity | intros _; reflexivity].
    + split; [apply union_subseteq_l', Hsub | intros Hlt; lia].
  - rewrite (right_id_L ∅ (∪)). split; assumption.
Qed.

Lemma bumps_samples_first (vs : list value) (st : stat) (seen : gset str) :
  samples st ⊆ seen ->
  ((size (samples st) < 3)%nat -> samples st = seen) ->
  samples (foldl bump st vs) ⊆ seen ∪ list_to_set (texts vs)
  ∧ ((size (samples (foldl bump st vs)) < 3)%nat ->
     samples (foldl bump st vs) = seen ∪ list_to_set (texts vs)).
Proof.
  revert st seen. induction vs as [|v vs IH]; intros st seen Hsub Heq.
  - cbn [foldl]. change (texts []) with (@nil str). cbn [list_to_set].
    rewrite (right_id_L ∅ (∪)). auto.
  - cbn [foldl]. rewrite texts_cons, list_to_set_app_L, (assoc_L (∪)).
    destruct (bump_samples_first st v seen Hsub Heq) as [Hsub' Heq'].
    apply IH; assumption.
Qed.

(** X2. After a run of [analyze_voter_file] that returns, the samples of
    a field are values the first 100 rows offer for it (trimmed, cut at
    50 characters); their number is the smaller of 3 and the number of
    distinct values offered, and when no more than 3 distinct values are
    offered the samples are all of them. *)
Theorem samples_are_first_distinct_values (f : file) (out : list printed)
    (row_count : Z) (field_stats : gmap key stat) (field : key) :
  analyze_voter_file f = (out, Ok (row_count, field_stats)) ->
  let all : gset str := list_to_set (offered field (take 100 (data_rows f))) in
  samples (getitem field_stats field) ⊆ all
  ∧ size (samples (getitem field_stats field)) = Nat.min 3 (size all)
  ∧ ((size all <= 3)%nat -> samples (getitem field_stats field) = all).
Proof.
  intros Hrun all. subst all.
  destruct (analyze_getitem f out row_count field_stats field Hrun) as [-> _].
  rewrite offered_cells.
  set (vs := cells field (take 100 (data_rows f))).
  destruct (bumps_samples_first vs new_stat ∅) as [Hsub Heq];
    [reflexivity | reflexivity |].
  rewrite (left_id_L ∅ (∪)) in Hsub, Heq.
  pose proof (bumps_samples_size vs new_stat) as Hsz.
  change (samples new_stat) with (∅ : gset str) in Hsz.
  rewrite size_empty in Hsz. specialize (Hsz ltac:(lia)).
  pose proof (subseteq_size _ _ Hsub) as Hle.
  split; [exact Hsub|].
  destruct (Nat.lt_ge_cases (size (samples (foldl bump new_stat vs))) 3)
    as [Hlt|Hge].
  - rewrite (Heq Hlt) in *. split; [lia | reflexivity].
  - split; [lia|]. intros Hall.
    assert (size (list_to_set (texts vs) : gset str)
            <= size (samples (foldl bump new_stat vs)))%nat as Hsize by lia.
    pose proof (set_subseteq_size_eq _ _ Hsub Hsize) as Hequiv.
    exact Hequiv.
Qed.

Lemma samples_are_first_distinct_values_witness :
  let all : gset str :=
    list_to_set (offered (Some (of_string "B")) (take 100 (data_rows scenario))) in
  let st := {| filled := 2; empty := 1;
               samples := {[ of_string "5"; of_string "8" ]} |} in
  samples st ⊆ all
  ∧ size (samples st) = Nat.min 3 (size all)
  ∧ ((size all <= 3)%nat -> samples st = all).
Proof.
  refine (samples_are_first_distinct_values scenario
            (analyze_voter_file scenario).1 3
            (match (analyze_voter_file scenario).2 with
             | Ok r => r.2 | Raise _ => ∅ end)
            (Some (of_string "B")) _).
  vm_compute. reflexivity.
Defined.

Lemma filled_text_head (v : value) (t : str) :
  filled_text v = Some t ->
  ∃ s c r, v = VStr s ∧ strip s = c :: r ∧ t = c :: r.
Proof.
  destruct v as [|s|l]; simpl; try discriminate.
  destruct s as [|c' s']; [discriminate|].
  destruct (strip (c' :: s')) as [|c r] eqn:E; [discriminate|].
  intros [= <-]. exists (c' :: s'), c, r. auto.
Qed.

(** X3. After a run of [analyze_voter_file] that returns, no sample is
    the empty text and every sample starts with a character that is not
    white space. *)
Theorem samples_start_with_text (f : file) (out : list printed)
    (row_count : Z) (field_stats : gmap key stat) (field : key) (x : str) :
  analyze_voter_file f = (out, Ok (row_count, field_stats)) ->
  x ∈ samples (getitem field_stats field) ->
  ∃ c r, x = c :: r ∧ isspace c = false.
Proof.
  intros Hrun Hx.
  destruct (analyze_getitem f out row_count field_stats field Hrun) as [Hget _].
  rewrite Hget in Hx.
  apply bumps_samples_elem in Hx as [Hx | (v & t & _ & Ht & ->)].
  - apply not_elem_of_empty in Hx. destruct Hx.
  - apply filled_text_head in Ht as (s & c & r & _ & Hs & ->).
    exists c, (take 49 r). split; [reflexivity|].
    apply (strip_head s c r Hs).
Qed.

Lemma samples_start_with_text_witness :
  ∃ c r, of_string "5" = c :: r ∧ isspace c = false.
Proof.
  refine (samples_start_with_text scenario
            (analyze_voter_file scenario).1 3
            (match (analyze_voter_file scenario).2 with
             | Ok r => r.2 | Raise _ => ∅ end)
            (Some (of_string "B")) (of_string "5") _ _).
  - vm_compute. reflexivity.
  - change (of_string "5" ∈ ({[ of_string "5"; of_string "8" ]} : gset str)).
    apply elem_of_union. left. apply elem_of_singleton. reflexivity.
Defined.

End sample_sets.

(** *** Rows with values beyond the header *)

Section surplus_rows.

Lemma named_no_surplus (row : dict) :
  Forall named_cell row -> dict_get row None = None.
Proof.
  intros Hall. apply dict_get_None. intros Hin.
  apply list_elem_of_fmap in Hin as ([k v] & Hk & Hkv). simpl in Hk. subst k.
  rewrite Forall_forall in Hall. destruct (Hall _ Hkv) as [[name Hname] _].
  discriminate.
Qed.

Lemma data_rows_shape (f : file) (row : dict) :
  row ∈ data_rows f -> row_shape row.
Proof.
  intros Hin. destruct (data_rows_make_row f row Hin) as (record & _ & ->).
  destruct (Nat.le_gt_cases (length record) (length (header_fields f)))
    as [Hle|Hgt].
  - left. apply make_row_named, Hle.
  - right. rewrite make_row_surplus by exact Hgt.
    destruct (drop (length (header_fields f)) record) as [|x l] eqn:E.
    { apply (f_equal length) in E. rewrite length_drop in E. simpl in E. lia. }
    exists (zipped (header_fields f) record), x, l.
    split; [apply zipped_named | reflexivity].
Qed.

(** A row as [make_row] builds it has surplus values or named cells only. *)
Lemma row_shape_cases (row : dict) :
  row_shape row ->
  (has_surplus row ∧ ∃ d x l, Forall named_cell d
                              ∧ row = d ++ [(None, VList (x :: l))])
  ∨ (¬ has_surplus row ∧ Forall named_cell row).
Proof.
  intros [Hnamed | (d & x & l & Hd & ->)].
  - right. split; [|exact Hnamed]. unfold has_surplus.
    rewrite (named_no_surplus row Hnamed). intros [? [=]].
  - left. split; [|eauto]. unfold has_surplus. apply dict_get_is_Some.
    rewrite fmap_app. apply elem_of_app. right. left.
Qed.

Lemma record_row_surplus (d : dict) (x : str) (l : list str)
    (fs : gmap key stat) :
  Forall named_cell d ->
  record_row (d ++ [(None, VList (x :: l))]) fs = Raise AttributeError.
Proof.
  intros Hd. revert fs.
  induction Hd as [|[k v] d [_ Hv] _ IH]; intros fs; [reflexivity|].
  cbn [app record_row]. rewrite record_value_spec.
  destruct Hv as [Hv | [s Hv]]; simpl in Hv; subst v; simpl; apply IH.
Qed.

(** The loop raises at the first row with surplus values it reaches. *)
Lemma sample_loop_surplus (rows : list dict) (ending : option exn)
    (n rc : Z) (fs : gmap key stat) :
  n <= 100 -> Forall row_shape rows ->
  Exists has_surplus (take (Z.to_nat (101 - n)) rows) ->
  sample_loop rows ending n rc fs = Raise AttributeError.
Proof.
  intros Hn Hshape. revert n rc fs Hn.
  induction Hshape as [|row rest Hrow _ IH]; intros n rc fs Hn Hex.
  - rewrite take_nil in Hex. inversion Hex.
  - replace (Z.to_nat (101 - n)) with (S (Z.to_nat (101 - (n + 1)))) in Hex by lia.
    cbn [take sample_loop] in *.
    destruct (row_shape_cases row Hrow) as [[_ (d & x & l & Hd & ->)] | [Hno Hnamed]].
    + rewrite record_row_surplus by exact Hd. reflexivity.
    + apply Exists_cons in Hex as [Hex | Hex]; [contradiction|].
      destruct (record_row_named row fs Hnamed) as [fs1 ->].
      unfold sample_size. destruct (Z.leb_spec 100 n) as [Hge|Hlt].
      * assert (n = 100) as -> by lia. simpl in Hex.
        rewrite take_0 in Hex. inversion Hex.
      * apply IH; [lia | exact Hex].
Qed.

Lemma data_rows_fieldnames (f : file) :
  data_rows f ≠ [] ->
  fieldnames (Csv.reader (readlines (content f))) = Ok (Some (header_fields f)).
Proof.
  unfold data_rows, header_fields, rows, fieldnames.
  destruct (Csv.reader (readlines (content f))) as [[|header rs] e]; simpl;
    [congruence | reflexivity].
Qed.

Lemma data_rows_all_shape (f : file) : Forall row_shape (data_rows f).
Proof. apply Forall_forall. intros row. apply data_rows_shape. Qed.

(** X4. When one of the first 100 rows of the file has more values than
    the header has fields, [analyze_voter_file] prints the preamble and the
    list of the field names, then raises [AttributeError] inside the
    sampling pass: no statistics are reported. *)
Theorem surplus_row_raises (f : file) :
  Exists has_surplus (take 100 (data_rows f)) ->
  analyze_voter_file f
  = (preamble f ++ listing (header_fields f), Raise AttributeError).
Proof.
  intros Hex. rewrite analyze_voter_file_eq.
  assert (data_rows f ≠ []) as Hne.
  { intros Heq. rewrite Heq, take_nil in Hex. inversion Hex. }
  rewrite (data_rows_fieldnames f Hne).
  rewrite (sample_loop_surplus (data_rows f) _ 1 0 ∅);
    [reflexivity | lia | apply data_rows_all_shape | exact Hex].
Qed.

Lemma surplus_row_raises_witness :
  analyze_voter_file surplus_file
  = (preamble surplus_file ++ listing (header_fields surplus_file),
     Raise AttributeError).
Proof.
  apply (surplus_row_raises surplus_file).
  apply Exists_exists. eexists. split.
  - apply list_elem_of_In. vm_compute. left. reflexivity.
  - vm_compute. eauto.
Defined.

Lemma sample_named (f : file) (n : nat) :
  Forall (fun row => ¬ has_surplus row) (take n (data_rows f)) ->
  Forall (Forall named_cell) (take n (data_rows f)).
Proof.
  intros Hno. apply Forall_forall. intros row Hin.
  rewrite Forall_forall in Hno. specialize (Hno row Hin).
  apply subseteq_take in Hin.
  destruct (row_shape_cases row (data_rows_shape f row Hin))
    as [[Hs _] | [_ Hnamed]]; [contradiction | exact Hnamed].
Qed.

(** X5. The four ways [analyze_voter_file] ends: with [TypeError] on a
    file without content; with [AttributeError] when one of the first 100
    rows the reader yields has more values than the header; with
    [csv.Error] when there is no such row and a field longer than
    [Csv.field_limit] stops the reader before it has yielded 100 rows;
    and normally in every other case.  It raises nothing else. *)
Theorem analyze_voter_file_outcomes (f : file) :
  (content f = [] ∧ (analyze_voter_file f).2 = Raise TypeError)
  ∨ (content f ≠ [] ∧ Exists has_surplus (take 100 (data_rows f))
     ∧ (analyze_voter_file f).2 = Raise AttributeError)
  ∨ (content f ≠ [] ∧ Forall (fun row => ¬ has_surplus row) (take 100 (data_rows f))
     ∧ ¬ sample_read f
     ∧ (analyze_voter_file f).2 = Raise CsvError)
  ∨ (content f ≠ [] ∧ Forall (fun row => ¬ has_surplus row) (take 100 (data_rows f))
     ∧ sample_read f
     ∧ ∃ r, (analyze_voter_file f).2 = Ok r).
Proof.
  destruct (content f) as [|c s] eqn:Hc.
  - left. split; [reflexivity|]. rewrite analyze_voter_file_eq, Hc. reflexivity.
  - right. assert (content f ≠ []) as Hne by (rewrite Hc; discriminate).
    rewrite <- Hc.
    destruct (decide (Exists has_surplus (take 100 (data_rows f)))) as [Hex|Hno].
    + left. split; [exact Hne|]. split; [exact Hex|].
      rewrite analyze_voter_file_eq.
      assert (data_rows f ≠ []) as Hrows.
      { intros Heq. rewrite Heq, take_nil in Hex. inversion Hex. }
      rewrite (data_rows_fieldnames f Hrows).
      rewrite (sample_loop_surplus (data_rows f) _ 1 0 ∅);
        [reflexivity | lia | apply data_rows_all_shape | exact Hex].
    + right. apply not_Exists_Forall in Hno; [|apply _].
      pose proof (sample_named f 100 Hno) as Hnamed.
      destruct (le_lt_dec 100 (length (data_rows f))) as [Hlen|Hlen];
        [|destruct (rows_end_cases (content f)) as [Hend|Hend]].
      * right. split; [exact Hne|]. split; [exact Hno|].
        split; [left; exact Hlen|].
        destruct (analyze_voter_file_returns f Hne (or_introl Hlen) Hnamed)
          as (out & r & ->). eauto.
      * right. split; [exact Hne|]. split; [exact Hno|].
        rewrite rows_end in Hend.
        split; [right; exact Hend|].
        destruct (analyze_voter_file_returns f Hne (or_intror Hend) Hnamed)
          as (out & r & ->). eauto.
      * left. split; [exact Hne|]. split; [exact Hno|]. split.
        { intros [Hge | Hto]; [lia|].
          apply rows_to_end in Hto. congruence. }
        rewrite analyze_voter_file_eq.
        destruct (fieldnames_nonempty (content f) Hne) as [[names ->] | ->];
          [|reflexivity].
        rewrite Hend, sample_loop_stopped; [reflexivity | lia | | simpl; lia].
        rewrite take_ge in Hnamed by lia. exact Hnamed.
Qed.

End surplus_rows.

(** *** The keys of the statistics *)

Section keys.

Lemma make_row_key_header (header record : list str) (name : str) :
  Some name ∈ (make_row header record).*1 -> name ∈ header.
Proof.
  assert (∀ n, Some name ∈ Some <$> take n header -> name ∈ header) as Htake.
  { intros n Hin. apply list_elem_of_fmap in Hin as (x & [= <-] & Hx).
    apply subseteq_take in Hx. exact Hx. }
  unfold make_row. fold (zipped header record). repeat case_match.
  - rewrite dict_set_keys. case_decide.
    + rewrite zipped_keys. apply Htake.
    + rewrite elem_of_app, zipped_keys, list_elem_of_singleton.
      intros [Hin | [=]]. exact (Htake _ Hin).
  - rewrite (stores_keys Some (fun _ => VNone)), zipped_keys.
    intros [Hin | Hin]; [exact (Htake _ Hin)|].
    apply list_elem_of_fmap in Hin as (x & [= <-] & Hx).
    apply subseteq_drop in Hx. exact Hx.
  - rewrite zipped_keys. apply Htake.
Qed.

(** A run that returns has met no row with surplus values. *)
Lemma analyze_no_surplus (f : file) (out : list printed)
    (r : Z * gmap key stat) :
  analyze_voter_file f = (out, Ok r) ->
  Forall (fun row => ¬ has_surplus row) (take 100 (data_rows f)).
Proof.
  intros Hrun.
  destruct (decide (Exists has_surplus (take 100 (data_rows f)))) as [Hex|Hno];
    [|apply not_Exists_Forall in Hno; [exact Hno | apply _]].
  exfalso. rewrite analyze_voter_file_eq in Hrun.
  destruct (fieldnames _) as [[names|]|e]; try discriminate.
  rewrite (sample_loop_surplus (data_rows f) _ 1 0 ∅) in Hrun;
    [discriminate | lia | apply data_rows_all_shape | exact Hex].
Qed.

(** After a run that returns, which keys have an entry. *)
Lemma analyze_lookup_iff (f : file) (out : list printed)
    (row_count : Z) (field_stats : gmap key stat) (k : key) :
  analyze_voter_file f = (out, Ok (row_count, field_stats)) ->
  is_Some (field_stats !! k)
  ↔ 1 <= row_count ∧ ∃ name, k = Some name ∧ name ∈ header_fields f.
Proof.
  intros Hrun. pose proof (analyze_no_surplus f out _ Hrun) as Hno.
  apply analyze_returns in Hrun as (Hrec & -> & _).
  rewrite take_min_length in Hrec.
  rewrite (record_rows_lookup _ _ _ k (data_rows_NoDup f _) Hrec).
  rewrite lookup_empty.
  assert (Z.of_nat (Nat.min (length (data_rows f)) 100)
          = Z.of_nat (length (take 100 (data_rows f)))) as ->
    by (rewrite length_take; lia).
  split.
  - intros Hsome.
    destruct (cells k (take 100 (data_rows f))) as [|v vs] eqn:E;
      [destruct Hsome as [? [=]]|].
    assert (v ∈ cells k (take 100 (data_rows f))) as Hv by (rewrite E; left).
    apply elem_of_cells in Hv as (row & Hrow & Hget).
    split.
    { destruct (take 100 (data_rows f)); [inversion Hrow | simpl; lia]. }
    rewrite Forall_forall in Hno. specialize (Hno row Hrow).
    apply subseteq_take in Hrow.
    destruct (data_rows_make_row f row Hrow) as (record & _ & ->).
    destruct k as [name|].
    + exists name. split; [reflexivity|].
      apply (make_row_key_header _ record), dict_get_is_Some. eauto.
    + exfalso. apply Hno. unfold has_surplus. eauto.
  - intros [Hrc (name & -> & Hname)].
    pose proof (data_rows_header f 100 name Hname) as Hall.
    destruct (take 100 (data_rows f)) as [|row rows]; [simpl in Hrc; lia|].
    apply Forall_cons in Hall as [[v Hv] _].
    unfold cells. cbn [omap list_omap]. rewrite Hv. eauto.
Qed.

(** X6. After a run of [analyze_voter_file] that returns, the statistics
    have an entry for exactly the fields of the header, provided at least
    one row was analysed; with no row analysed they have no entry at all
    (so no key field is reported). *)
Theorem statistics_keys_are_header_fields (f : file) (out : list printed)
    (row_count : Z) (field_stats : gmap key stat) (k : key) :
  analyze_voter_file f = (out, Ok (row_count, field_stats)) ->
  is_Some (field_stats !! k)
  ↔ 1 <= row_count ∧ ∃ name, k = Some name ∧ name ∈ header_fields f.
Proof. apply analyze_lookup_iff. Qed.

Lemma statistics_keys_are_header_fields_witness :
  is_Some ((match (analyze_voter_file scenario).2 with
            | Ok r => r.2 | Raise _ => ∅ end) !! Some (of_string "B"))
  ↔ 1 <= 3 ∧ ∃ name, Some (of_string "B") = Some name
                      ∧ name ∈ header_fields scenario.
Proof.
  apply (statistics_keys_are_header_fields scenario
           (analyze_voter_file scenario).1 3).
  vm_compute. reflexivity.
Defined.

End keys.

(** *** Only the first 100 rows count *)

Section bounded_sample.

Lemma sample_loop_take (rows : list dict) (ending : option exn)
    (n rc : Z) (fs : gmap key stat) :
  n <= 100 ->
  (Z.to_nat (101 - n) <= length rows)%nat ∨ ending = None ->
  sample_loop rows ending n rc fs
  = sample_loop (take (Z.to_nat (101 - n)) rows) None n rc fs.
Proof.
  revert n rc fs. induction rows as [|row rest IH]; intros n rc fs Hn Hend.
  - rewrite take_nil. destruct Hend as [Hend | ->]; [simpl in Hend; lia | reflexivity].
  - replace (Z.to_nat (101 - n)) with (S (Z.to_nat (101 - (n + 1)))) in * by lia.
    cbn [take sample_loop].
    destruct (record_row row fs) as [fs1|]; [|reflexivity].
    unfold sample_size. destruct (Z.leb_spec 100 n); [reflexivity|].
    apply IH; [lia|].
    destruct Hend as [Hend | ->]; [left; simpl in Hend; lia | right; reflexivity].
Qed.

(** X7. The result of [analyze_voter_file] (the rows analysed and the
    statistics, or the exception) depends on the first 100 data rows
    only: two files with content, each read by the csv reader as far
    as the sample goes (100 rows, or the end of the file), whose first
    100 rows are the same end the same way. *)
Theorem statistics_depend_on_first_rows (f g : file) :
  content f ≠ [] -> content g ≠ [] ->
  sample_read f -> sample_read g ->
  take 100 (data_rows f) = take 100 (data_rows g) ->
  (analyze_voter_file f).2 = (analyze_voter_file g).2.
Proof.
  intros Hf Hg Hrf Hrg Hrows. rewrite !analyze_voter_file_eq.
  destruct (sample_read_fieldnames f Hf Hrf) as [names ->].
  destruct (sample_read_fieldnames g Hg Hrg) as [names' ->].
  rewrite (sample_loop_take (data_rows f)), (sample_loop_take (data_rows g))
    by (try lia; apply sample_read_end; assumption).
  change (Z.to_nat (101 - 1)) with 100%nat. rewrite Hrows.
  destruct (sample_loop _ _ _ _ _); reflexivity.
Qed.

Lemma statistics_depend_on_first_rows_witness :
  (analyze_voter_file long_file).2 = (analyze_voter_file long_file_tail).2.
Proof.
  apply (statistics_depend_on_first_rows long_file long_file_tail).
  - vm_compute. discriminate.
  - vm_compute. discriminate.
  - right. vm_compute. reflexivity.
  - right. vm_compute. reflexivity.
  - vm_compute. reflexivity.
Defined.

(** The reader has to get that far: [long_value_file] and [header_file]
    both yield no row, and only the second is analysed to the end. *)
Lemma stopped_reader_ends_otherwise :
  take 100 (data_rows long_value_file) = take 100 (data_rows header_file)
  ∧ (analyze_voter_file long_value_file).2 = Raise CsvError
  ∧ (analyze_voter_file header_file).2 = Ok (0, ∅).
Proof.
  split; [|split].
  - unfold data_rows at 1. rewrite long_value_file_reader. reflexivity.
  - rewrite analyze_voter_file_eq. unfold data_rows.
    rewrite long_value_file_reader. reflexivity.
  - vm_compute. reflexivity.
Qed.

End bounded_sample.

(** *** The row count and the rows *)

Section counting.

Import Csv.

Lemma records_from_length (p : parser) (lines : list str) :
  (length (records_from p lines).1 <= length lines + open_field p)%nat.
Proof.
  revert p. induction lines as [|l lines IH]; intros p.
  - unfold open_field. simpl. case_match; simpl; lia.
  - cbn [records_from]. destruct (feed_line p l) as [p'|e]; [|simpl; lia].
    destruct (state p') eqn:E;
      try (specialize (IH p'); unfold open_field in IH;
           destruct (negb _ || _); simpl in *; lia).
    specialize (IH parse_reset).
    destruct (records_from parse_reset lines) as [rs e]. simpl in *.
    unfold open_field in IH. simpl in IH. lia.
Qed.

(** Every data row takes at least one line after the header line. *)
Lemma data_rows_length (f : file) :
  (length (data_rows f) <= length (readlines (content f)) - 1)%nat.
Proof.
  pose proof (records_from_length parse_reset (readlines (content f))) as Hlen.
  unfold open_field in Hlen. simpl in Hlen.
  unfold data_rows, DictReader.rows. fold (reader (readlines (content f))) in Hlen.
  destruct (reader (readlines (content f))) as [[|header rs] e]; simpl in *; [lia|].
  rewrite length_map.
  pose proof (length_filter (fun r => negb (is_blank r)) rs). lia.
Qed.

(** X8. [count_total_rows] raises [StopIteration], after its heading,
    exactly on a file without content; on every other file it returns
    the number of lines less one, which is not negative. *)
Theorem count_total_rows_outcomes (f : file) :
  (content f = []
   ∧ count_total_rows f
     = (banner (of_string "COUNTING TOTAL ROWS (this may take a minute)..."),
        Raise StopIteration))
  ∨ (content f ≠ []
     ∧ ∃ n, 0 <= n
            ∧ Z.of_nat (length (readlines (content f))) = n + 1
            ∧ (count_total_rows f).2 = Ok n).
Proof.
  destruct (content f) as [|c s] eqn:Hc.
  - left. split; [reflexivity|]. unfold count_total_rows. rewrite Hc. reflexivity.
  - right. split; [discriminate|].
    pose proof (readlines_nonempty (c :: s) ltac:(discriminate)) as Hne.
    unfold count_total_rows. rewrite Hc.
    destruct (readlines (c :: s)) as [|l rest]; [congruence|].
    exists (Z.of_nat (length rest)). split; [lia|]. split; [simpl; lia|].
    reflexivity.
Qed.

(** X9. On every file, when [analyze_voter_file] and [count_total_rows]
    both return, the number of rows analysed is at most the number of
    rows counted. *)
Theorem rows_analyzed_at_most_counted (f : file) (out out' : list printed)
    (row_count : Z) (field_stats : gmap key stat) (count : Z) :
  analyze_voter_file f = (out, Ok (row_count, field_stats)) ->
  count_total_rows f = (out', Ok count) ->
  row_count <= count.
Proof.
  intros Hrun Hcount. apply analyze_returns in Hrun as (_ & -> & _).
  pose proof (data_rows_length f) as Hlen.
  unfold count_total_rows in Hcount.
  destruct (readlines (content f)) as [|l rest]; [discriminate|].
  injection Hcount as _ <-. simpl in Hlen. lia.
Qed.

Lemma rows_analyzed_at_most_counted_witness : 1 <= 2.
Proof.
  refine (rows_analyzed_at_most_counted blank_line_file
            (analyze_voter_file blank_line_file).1
            (count_total_rows blank_line_file).1 1
            (match (analyze_voter_file blank_line_file).2 with
             | Ok r => r.2 | Raise _ => ∅ end) 2 _ _);
    vm_compute; reflexivity.
Defined.

End counting.

(** *** Plain tab-delimited files *)

Section plain_files.






End plain_files.

(** *** The record dump, again *)

Section dump.

(** X11. When the target record of [print_sample_record] has more values
    than the header has fields, the fields of the record are printed and
    then [AttributeError] is raised. *)
Theorem sample_record_surplus_raises (f : file) (record_num : Z) (row : dict) :
  1 <= record_num ->
  data_rows f !! Z.to_nat (record_num - 1) = Some row ->
  has_surplus row ->
  print_sample_record f record_num
  = (banner (of_string "SAMPLE RECORD #" ++ str_of_int record_num)
     ++ map (fun nv => field_line nv.1 nv.2) (nonempty_fields row),
     Raise AttributeError).
Proof.
  intros Hn Hrow Hsur. rewrite print_sample_record_eq.
  rewrite (find_record_hit _ _ 1 record_num row Hn Hrow). cbn [fst snd].
  assert (row ∈ data_rows f) as Hin by (apply list_elem_of_lookup; eauto).
  destruct (row_shape_cases row (data_rows_shape f row Hin))
    as [[_ (d & x & l & Hd & ->)] | [Hno _]]; [|contradiction].
  rewrite print_fields_surplus by exact Hd. reflexivity.
Qed.

Lemma sample_record_surplus_raises_witness :
  print_sample_record surplus_file 1
  = (banner (of_string "SAMPLE RECORD #" ++ str_of_int 1)
     ++ map (fun nv => field_line nv.1 nv.2)
            (nonempty_fields
               (make_row [of_string "A"] [of_string "1"; of_string "2"])),
     Raise AttributeError).
Proof.
  apply (sample_record_surplus_raises surplus_file 1).
  - lia.
  - vm_compute. reflexivity.
  - vm_compute. eauto.
Defined.

Lemma find_record_below (rows : list dict) (ending : option exn) (i n : Z) :
  n < i -> ending = None -> find_record rows ending i n = ([], Ok tt).
Proof.
  intros Hn ->. revert i Hn.
  induction rows as [|row rest IH]; intros i Hn; simpl; [reflexivity|].
  destruct (Z.eqb_spec i n); [lia|]. apply IH. lia.
Qed.

(** X12. For a record number below 1, on a file that the csv reader
    reads to its end (no field of it is longer than [Csv.field_limit]),
    [print_sample_record] reads the whole file, matches no row, prints
    its heading only and returns. *)
Theorem record_number_below_one (f : file) (record_num : Z) :
  reads_to_end f ->
  record_num < 1 ->
  print_sample_record f record_num
  = (banner (of_string "SAMPLE RECORD #" ++ str_of_int record_num), Ok tt).
Proof.
  intros Hend Hn. rewrite print_sample_record_eq.
  rewrite find_record_below; [reflexivity | exact Hn | apply rows_to_end, Hend].
Qed.

Lemma record_number_below_one_witness :
  print_sample_record scenario 0
  = (banner (of_string "SAMPLE RECORD #" ++ str_of_int 0), Ok tt).
Proof.
  apply (record_number_below_one scenario 0); [vm_compute; reflexivity | lia].
Defined.

End dump.

(** *** The list of the field names *)

Section field_list.

(** X13. On a file with content, the lines 6, 7, ... that
    [analyze_voter_file] prints list the field names in the order of the
    header, each with its number from 1, right-aligned in 3 columns. *)
Theorem field_names_listed (f : file) (i : nat) (name : str) :
  content f ≠ [] ->
  header_fields f !! i = Some name ->
  (analyze_voter_file f).1 !! (5 + i)%nat
  = Some (Line (of_string "  " ++ rjust 3 (str_of_int (Z.of_nat i + 1))
                ++ of_string ". " ++ name)).
Proof.
  intros Hne Hi. rewrite analyze_voter_file_eq.
  unfold header_fields in Hi.
  destruct (fieldnames (Csv.reader (readlines (content f))))
    as [[names|]|err]; try discriminate.
  assert (∀ rest, (preamble f ++ listing names ++ rest) !! (5 + i)%nat
                  = Some (Line (of_string "  "
                                ++ rjust 3 (str_of_int (Z.of_nat i + 1))
                                ++ of_string ". " ++ name))) as Hlook.
  { intros rest. rewrite lookup_app_r by (simpl; lia).
    replace (5 + i - length (preamble f))%nat with (2 + i)%nat by (simpl; lia).
    pose proof (lookup_lt_Some _ _ _ Hi) as Hlt.
    unfold listing. rewrite <- !app_assoc.
    rewrite lookup_app_r by (simpl; lia).
    simpl length. replace (2 + i - 2)%nat with i by lia.
    rewrite lookup_app_l by (rewrite length_imap; exact Hlt).
    rewrite list_lookup_imap. unfold str in *. rewrite Hi. reflexivity. }
  destruct (sample_loop _ _ _ _ _) as [r|err]; cbn [fst].
  - apply Hlook.
  - rewrite <- (app_nil_r (listing names)). apply Hlook.
Qed.

Lemma field_names_listed_witness :
  (analyze_voter_file scenario).1 !! (5 + 1)%nat
  = Some (Line (of_string "  " ++ rjust 3 (str_of_int (Z.of_nat 1 + 1))
                ++ of_string ". " ++ of_string "B")).
Proof.
  apply (field_names_listed scenario 1 (of_string "B")).
  - vm_compute. discriminate.
  - vm_compute. reflexivity.
Defined.

End field_list.

(** *** The program *)

Section program.

Lemma no_surplus_named (f : file) (row : dict) :
  row ∈ data_rows f -> ¬ has_surplus row -> Forall named_cell row.
Proof.
  intros Hin Hno.
  destruct (row_shape_cases row (data_rows_shape f row Hin))
    as [[Hs _] | [_ Hnamed]]; [contradiction | exact Hnamed].
Qed.


(** The dump returns when its record has no surplus values and the
    reader gets to it, or to the end of the file. *)
Lemma print_sample_record_ok (f : file) (n : Z) :
  (∀ row, 1 <= n -> data_rows f !! Z.to_nat (n - 1) = Some row ->
          ¬ has_surplus row) ->
  (n < 1 ∨ data_rows f !! Z.to_nat (n - 1) = None -> reads_to_end f) ->
  ∃ out, print_sample_record f n = (out, Ok tt).
Proof.
  intros Hrow Hend. rewrite print_sample_record_eq.
  destruct (Z.lt_ge_cases n 1) as [Hlt|Hge].
  - rewrite find_record_below;
      [eauto | exact Hlt | apply rows_to_end, Hend; left; exact Hlt].
  - destruct (data_rows f !! Z.to_nat (n - 1)) as [row|] eqn:E.
    + rewrite (find_record_hit _ _ 1 n row Hge E).
      rewrite print_fields_named; [eauto|].
      apply (no_surplus_named f row); [apply list_elem_of_lookup; eauto | auto].
    + rewrite (rows_to_end f (Hend (or_intror eq_refl))).
      apply lookup_ge_None in E.
      rewrite find_record_miss by lia. eauto.
Qed.

(** The second record is there, or the reader has got to the end. *)
Lemma sample_read_second (f : file) :
  sample_read f ->
  2 < 1 ∨ data_rows f !! Z.to_nat (2 - 1) = None -> reads_to_end f.
Proof.
  intros [Hlen | Hend] [Hlt | Hnone]; try lia; try exact Hend.
  apply lookup_ge_None in Hnone. simpl in Hnone. lia.
Qed.



(** X15. On a file without content the program prints the three lines
    of the preamble and stops with [TypeError]: no record is dumped and the
    operator is not asked. *)
Theorem program_on_empty_file (argv : list str) (d : disk) (response : str) :
  (d (script_path argv)).2 = [] ->
  main argv d response
  = (map Out (preamble (open_file d (script_path argv))), Raise TypeError).
Proof.
  intros Hc. unfold main. fold (script_path argv).
  rewrite analyze_voter_file_eq. simpl content. rewrite Hc. reflexivity.
Qed.

Lemma program_on_empty_file_witness :
  main [] (fun _ => (0, [])) [] 
  = (map Out (preamble (open_file (fun _ => (0, [])) (script_path []))),
     Raise TypeError).
Proof. apply (program_on_empty_file [] (fun _ => (0, [])) []). reflexivity. Defined.

End program.

(** *** The report of the key fields *)

Section key_report.

Lemma bump_samples_filled (st : stat) (v : value) :
  0 <= filled st -> (filled st = 0 ↔ samples st = ∅) ->
  0 <= filled (bump st v) ∧ (filled (bump st v) = 0 ↔ samples (bump st v) = ∅).
Proof.
  intros Hpos Hiff. unfold bump.
  destruct (filled_text v) as [t|]; cbn [filled samples]; [|auto].
  split; [lia|]. split; [lia|]. intros Hempty. exfalso.
  destruct (Nat.ltb_spec (size (samples st)) 3) as [Hlt|Hge].
  - apply (f_equal size) in Hempty. rewrite size_empty in Hempty.
    pose proof (subseteq_size {[slice_to 50 t]} (samples st ∪ {[slice_to 50 t]})
                  (union_subseteq_r _ _)) as Hle.
    rewrite size_singleton in Hle. lia.
  - rewrite Hempty, size_empty in Hge. lia.
Qed.

Lemma bumps_samples_filled (vs : list value) (st : stat) :
  0 <= filled st -> (filled st = 0 ↔ samples st = ∅) ->
  filled (foldl bump st vs) = 0 ↔ samples (foldl bump st vs) = ∅.
Proof.
  revert st. induction vs as [|v vs IH]; intros st Hpos Hiff; [exact Hiff|].
  cbn [foldl]. destruct (bump_samples_filled st v Hpos Hiff) as [Hpos' Hiff'].
  apply IH; assumption.
Qed.

(** X16. After a run of [analyze_voter_file] that returns, a field has
    no samples exactly when its filled count is 0: the samples line of a
    key field is printed exactly for the fields with a filled value. *)
Theorem samples_iff_filled (f : file) (out : list printed)
    (row_count : Z) (field_stats : gmap key stat) (field : key) :
  analyze_voter_file f = (out, Ok (row_count, field_stats)) ->
  filled (getitem field_stats field) = 0
  ↔ samples (getitem field_stats field) = ∅.
Proof.
  intros Hrun.
  destruct (analyze_getitem f out row_count field_stats field Hrun) as [-> _].
  apply bumps_samples_filled; [simpl; lia | split; reflexivity].
Qed.

Lemma samples_iff_filled_witness :
  filled (getitem (match (analyze_voter_file scenario).2 with
                   | Ok r => r.2 | Raise _ => ∅ end) (Some (of_string "C"))) = 0
  ↔ samples (getitem (match (analyze_voter_file scenario).2 with
                      | Ok r => r.2 | Raise _ => ∅ end) (Some (of_string "C"))) = ∅.
Proof.
  apply (samples_iff_filled scenario (analyze_voter_file scenario).1 3).
  vm_compute. reflexivity.
Defined.

(** X17. After a run of [analyze_voter_file] that returns, the report
    has a block for a key field exactly when the field is in the header
    and at least one row was analysed; the block starts with the name of
    the field and the line of its filled count.  A key field that the
    file does not have is passed over. *)
Theorem key_field_reported_iff_present (f : file) (out : list printed)
    (row_count : Z) (field_stats : gmap key stat) (field : str) :
  analyze_voter_file f = (out, Ok (row_count, field_stats)) ->
  (field ∈ header_fields f ∧ 1 <= row_count ->
   ∃ more, report_field field_stats row_count field
           = Line (LF :: field ++ of_string ":")
             :: Line (of_string "  Filled: "
                      ++ str_of_int (filled (getitem field_stats (Some field)))
                      ++ of_string "/" ++ str_of_int row_count
                      ++ of_string " ("
                      ++ format_fixed 1
                           (filled_pct (filled (getitem field_stats (Some field)))
                                       row_count)
                      ++ of_string "%)")
             :: more)
  ∧ (¬ (field ∈ header_fields f ∧ 1 <= row_count) ->
     report_field field_stats row_count field = []).
Proof.
  intros Hrun.
  pose proof (analyze_lookup_iff f out row_count field_stats (Some field) Hrun)
    as Hiff.
  unfold report_field, getitem. split.
  - intros [Hin Hrc].
    assert (is_Some (field_stats !! Some field)) as Hsome
      by (apply Hiff; split; [exact Hrc | eauto]).
    clear Hiff. unfold key, str in *.
    destruct (field_stats !! Some field) as [st|];
      [|destruct Hsome as [? [=]]].
    eexists. reflexivity.
  - intros Hno.
    assert (¬ is_Some (field_stats !! Some field)) as Hnone.
    { intros Hsome. apply Hno.
      destruct (proj1 Hiff Hsome) as [Hrc (name & [= <-] & Hin)]. auto. }
    clear Hiff. unfold key, str in *.
    destruct (field_stats !! Some field) as [st|]; [|reflexivity].
    contradiction Hnone. eauto.
Qed.

Lemma key_field_reported_iff_present_witness :
  let fs := match (analyze_voter_file voters).2 with
            | Ok r => r.2 | Raise _ => ∅ end in
  (of_string "Gender" ∈ header_fields voters ∧ 1 <= 3 ->
   ∃ more, report_field fs 3 (of_string "Gender")
           = Line (LF :: of_string "Gender" ++ of_string ":")
             :: Line (of_string "  Filled: "
                      ++ str_of_int (filled (getitem fs (Some (of_string "Gender"))))
                      ++ of_string "/" ++ str_of_int 3
                      ++ of_string " ("
                      ++ format_fixed 1
                           (filled_pct (filled (getitem fs (Some (of_string "Gender")))) 3)
                      ++ of_string "%)")
             :: more)
  ∧ (¬ (of_string "Gender" ∈ header_fields voters ∧ 1 <= 3) ->
     report_field fs 3 (of_string "Gender") = []).
Proof.
  intros fs.
  apply (key_field_reported_iff_present voters (analyze_voter_file voters).1 3).
  vm_compute. reflexivity.
Defined.

End key_report.

(** *** The program, again *)

Section program_ends.

(** X18. The program ends as [analyze_voter_file] ends: it fails exactly
    when the analysis fails, with the same exception; the record dump and
    the row count that follow an analysis that returned never raise. *)
Theorem program_ends_as_analysis (argv : list str) (d : disk) (response : str) :
  (main argv d response).2
  = match (analyze_voter_file (open_file d (script_path argv))).2 with
    | Ok _ => Ok tt
    | Raise e => Raise e
    end.
Proof.
  unfold main. fold (script_path argv).
  set (f := open_file d (script_path argv)).
  destruct (analyze_voter_file f) as [out1 [r|e]] eqn:Hrun; [|reflexivity].
  pose proof (analyze_no_surplus f out1 r Hrun) as Hno.
  assert (content f ≠ []) as Hne.
  { intros Hc. rewrite analyze_voter_file_eq, Hc in Hrun. discriminate. }
  destruct (print_sample_record_ok f 2) as [out2 ->].
  { intros row _ Hrow. rewrite Forall_forall in Hno. apply Hno.
    apply elem_of_take. exists 1%nat. split; [exact Hrow | lia]. }
  { apply sample_read_second, (analyze_sample_read f out1 r Hrun). }
  cbv zeta. destruct (answers_yes response); [|reflexivity].
  unfold count_total_rows.
  pose proof (readlines_nonempty (content f) Hne) as Hlines.
  destruct (readlines (content f)) as [|l rest]; [congruence|]. reflexivity.
Qed.

End program_ends.

(** *** The total with its separators *)

Section thousands.

Lemma string_of_uint_digits (d : Decimal.uint) :
  Forall is_digit (of_string (NilEmpty.string_of_uint d)).
Proof.
  unfold of_string, is_digit.
  induction d; simpl; constructor; try assumption; vm_compute; split; discriminate.
Qed.

Lemma str_of_int_digits (n : Z) :
  0 <= n -> Forall is_digit (str_of_int n).
Proof.
  intros Hn. unfold str_of_int.
  assert (Forall is_digit [48%N]) as Hzero
    by (constructor; [unfold is_digit; lia | constructor]).
  destruct n as [|p|p]; [| |lia].
  - exact Hzero.
  - simpl. unfold NilZero.string_of_uint.
    destruct (Pos.to_uint p) eqn:E; try (rewrite <- E; apply string_of_uint_digits).
    exact Hzero.
Qed.

Lemma group3_filter (l : list N) (k : nat) :
  Forall is_digit l ->
  filter (fun c => c ≠ 44%N) (group3 l k) = l.
Proof.
  intros Hl. revert k.
  induction Hl as [|c l Hc _ IH]; intros k; [reflexivity|].
  assert (c ≠ 44%N) as Hne by (unfold is_digit in Hc; lia).
  cbn [group3].
  destruct k as [|[|[|[|k]]]];
    rewrite ?(filter_cons_False _ 44%N) by (intros H; apply H; reflexivity);
    rewrite filter_cons_True by exact Hne; rewrite IH; reflexivity.
Qed.

(** X19. The total that [count_total_rows] prints is the decimal numeral
    of the count with commas put in: taking the commas out gives the
    numeral back. *)
Theorem format_thousands_without_commas (n : Z) :
  0 <= n ->
  filter (fun c => c ≠ 44%N) (format_thousands n) = str_of_int n.
Proof.
  intros Hn. unfold format_thousands.
  rewrite (proj2 (Z.ltb_ge n 0) Hn), Z.abs_eq by exact Hn.
  rewrite (rev_alt (group3 _ _)).
  change (filter (fun c => c ≠ 44%N)
            (reverse (group3 (rev (str_of_int n)) 0)) = str_of_int n).
  rewrite filter_reverse, group3_filter
    by (apply Forall_rev, str_of_int_digits, Hn).
  unfold reverse. rewrite <- rev_alt. apply rev_involutive.
Qed.

Lemma format_thousands_without_commas_witness :
  filter (fun c => c ≠ 44%N) (format_thousands 1234567) = str_of_int 1234567.
Proof. apply (format_thousands_without_commas 1234567). lia. Defined.

End thousands.
